(** * Bayesian A/B tester: a shallow embedding of [scripts/bayesian_a_b_tester.py]

    The script parses its command line with [argparse], builds a two-rate
    model inside a [pm.Model()] block (uniform priors, binomial observations,
    the deterministic difference [delta]), seeds the sampler with
    [pm.find_MAP()], samples with [pm.sample] and reads three series out of
    the resulting trace.

    The embedding follows that layout:
    - [Py]      the Python values, exceptions and subscripting the script uses;
    - [Cli]     [parse_args] and the parameter extraction of [__main__];
    - [Script]  the [__main__] block as a program in a state-and-error monad,
                over a record of the library entry points it calls;
    - [Density] and [Sampler]  the density model and the sampler contract;
    - [Plot]    [plot_groups] and the kinds of call a run makes;
    - [Pipeline]  the sampler put in the place of [pm.sample]. *)

From Stdlib Require Import String Ascii List ZArith Bool Lia.
From Stdlib Require QArith.
From Stdlib Require Import Reals Lra.
From Stdlib Require DecimalString.
Import ListNotations.

Set Warnings "-abstract-large-number".
Local Open Scope string_scope.

(* ===================================================================== *)
(** ** Python values, exceptions, subscripting *)
(* ===================================================================== *)

Module Py.

(** The objects that flow through [__main__]: [None], ints, strings and the
    list literal [[0,1]]. *)
#[warnings="-register-all"]
Inductive PyVal : Type :=
| PyNone
| PyInt (z : Z)
| PyStr (s : string)
| PyList (l : list PyVal).

(** Exceptions by origin: the interpreter's own ([IndexError], [TypeError],
    [KeyError]), [argparse]'s exit, and whatever class a library call raises. *)
Inductive PyExc : Type :=
| IndexError
| TypeError
| KeyError (key : string)
| SystemExit (code : Z)
| LibExc (cls : string).

Inductive Result (A : Type) : Type :=
| Ok (a : A)
| Err (e : PyExc).

Arguments Ok {A} a.
Arguments Err {A} e.

Definition is_ok {A} (r : Result A) : bool :=
  match r with Ok _ => true | Err _ => false end.

(** [obj[i]] for a non-negative literal index [i]: a list yields its element,
    a string yields the one-character string at that position, both raise
    [IndexError] out of range; [None] and ints are not subscriptable. *)
Definition getitem (obj : PyVal) (i : nat) : Result PyVal :=
  match obj with
  | PyList l =>
      match nth_error l i with
      | Some v => Ok v
      | None => Err IndexError
      end
  | PyStr s =>
      match String.get i s with
      | Some c => Ok (PyStr (String c EmptyString))
      | None => Err IndexError
      end
  | PyNone | PyInt _ => Err TypeError
  end.

(** [x is not None] *)
Definition is_not_None (v : PyVal) : bool :=
  match v with PyNone => false | _ => true end.

(** A value is a number when it is an [int]; strings are not, whatever
    characters they hold. *)
Definition is_number (v : PyVal) : bool :=
  match v with PyInt _ => true | _ => false end.

End Py.

Import Py.

(* ===================================================================== *)
(** ** Command line: [parse_args] and the parameter extraction *)
(* ===================================================================== *)

Module Cli.

(** What the command line holds for each option: [None] when the option is
    absent, [Some s] with the raw token otherwise. *)
Record RawArgs : Type := mkRaw {
  raw_loglevel : option string;
  raw_n_a : option string;
  raw_n_b : option string;
  raw_N_a : option string;
  raw_N_b : option string;
  raw_p_a : option string;
  raw_p_b : option string
}.

(** The namespace [parser.parse_args()] returns; attribute names are the
    [dest=] names of the script (including [loglvel]). *)
Record Namespace : Type := mkNamespace {
  loglvel : string;
  n_a : PyVal;
  n_b : PyVal;
  N_a : PyVal;
  N_b : PyVal;
  p_a : PyVal;
  p_b : PyVal
}.

(** [choices=['INFO', 'DEBUG', 'WARNING', 'ERROR']] *)
Definition loglevel_choices : list string :=
  ["INFO"; "DEBUG"; "WARNING"; "ERROR"].

Fixpoint mem_string (s : string) (l : list string) : bool :=
  match l with
  | [] => false
  | x :: r => if String.eqb s x then true else mem_string s r
  end.

(** No [type=] is given for any option, so a supplied value stays a [str];
    [default=None] otherwise. *)
Definition arg_value (o : option string) : PyVal :=
  match o with
  | Some s => PyStr s
  | None => PyNone
  end.

(** [parse_args]: the log level defaults to ['INFO'] and a supplied one
    outside [choices] makes [argparse] exit with status 2; the six other
    options are stored as given. *)
Definition parse_args (raw : RawArgs) : Result Namespace :=
  match
    match raw_loglevel raw with
    | None => Ok "INFO"
    | Some s => if mem_string s loglevel_choices then Ok s else Err (SystemExit 2)
    end
  with
  | Err e => Err e
  | Ok lvl =>
      Ok {| loglvel := lvl;
            n_a := arg_value (raw_n_a raw);
            n_b := arg_value (raw_n_b raw);
            N_a := arg_value (raw_N_a raw);
            N_b := arg_value (raw_N_b raw);
            p_a := arg_value (raw_p_a raw);
            p_b := arg_value (raw_p_b raw) |}
  end.

(** [if CLI_args.p_a is not None: priors_a = CLI_args.p_a
     else: priors_a = [0,1]] (same for [p_b]). *)
Definition priors_of (arg : PyVal) : PyVal :=
  if is_not_None arg then arg else PyList [PyInt 0; PyInt 1].

Definition priors_a (ns : Namespace) : PyVal := priors_of (p_a ns).
Definition priors_b (ns : Namespace) : PyVal := priors_of (p_b ns).

(** The two keyword arguments of [pm.Uniform(name, lower=priors[0],
    upper=priors[1])], evaluated left to right. *)
Definition uniform_bounds (priors : PyVal) : Result (PyVal * PyVal) :=
  match getitem priors 0 with
  | Err e => Err e
  | Ok lower =>
      match getitem priors 1 with
      | Err e => Err e
      | Ok upper => Ok (lower, upper)
      end
  end.

(** Numeric levels of the [logging] module. *)
Definition logging_DEBUG : Z := 10.
Definition logging_INFO : Z := 20.
Definition logging_WARNING : Z := 30.
Definition logging_ERROR : Z := 40.

(** The branches of the [if/elif/else] chain on [CLI_args.loglvel]. *)
Inductive LevelBranch : Type :=
| BranchInfo
| BranchDebug
| BranchWarning
| BranchError
| BranchFallback.

Definition loglevel_branch (lvl : string) : LevelBranch :=
  if String.eqb lvl "INFO" then BranchInfo
  else if String.eqb lvl "DEBUG" then BranchDebug
  else if String.eqb lvl "WARNING" then BranchWarning
  else if String.eqb lvl "ERROR" then BranchError
  else BranchFallback.

(** The argument of [logging.getLogger().setLevel(...)] in each branch. *)
Definition branch_level (b : LevelBranch) : Z :=
  match b with
  | BranchInfo => logging_INFO
  | BranchDebug => logging_DEBUG
  | BranchWarning => logging_WARNING
  | BranchError => logging_ERROR
  | BranchFallback => logging_INFO
  end.

Definition configured_level (ns : Namespace) : Z :=
  branch_level (loglevel_branch (loglvel ns)).

(** The name table of the [logging] module, used to say which level a name
    denotes. *)
Definition logging_nameToLevel : list (string * Z) :=
  [("CRITICAL", 50%Z); ("FATAL", 50%Z); ("ERROR", 40%Z); ("WARN", 30%Z);
   ("WARNING", 30%Z); ("INFO", 20%Z); ("DEBUG", 10%Z); ("NOTSET", 0%Z)].

Fixpoint assoc {A} (k : string) (l : list (string * A)) : option A :=
  match l with
  | [] => None
  | (k', v) :: r => if String.eqb k k' then Some v else assoc k r
  end.

Definition level_named (name : string) : option Z :=
  assoc name logging_nameToLevel.

(** The level an invocation names: the [--loglevel] token, ['INFO'] without. *)
Definition requested_level_name (raw : RawArgs) : string :=
  match raw_loglevel raw with
  | Some s => s
  | None => "INFO"
  end.

End Cli.

Import Cli.

(* ===================================================================== *)
(** ** The [__main__] block *)
(* ===================================================================== *)

Module Script.

(** Symbolic tensors built inside the model block: a random variable referred
    to by name, and the difference [x - y] of two tensors. *)
Inductive Expr : Type :=
| ERv (name : string)
| ESub (x y : Expr).

Inductive Dist : Type :=
| DUniform (lower upper : PyVal)
| DBinomial (p : Expr) (n : PyVal).

(** The model context the [with pm.Model() as ab_test_model:] block fills. *)
Record Model : Type := mkModel {
  free_RVs : list (string * Dist);
  deterministics : list (string * Expr);
  observed_RVs : list (string * (Dist * PyVal))
}.

Definition empty_model : Model := mkModel [] [] [].

Definition add_free (name : string) (d : Dist) (m : Model) : Model :=
  mkModel (free_RVs m ++ [(name, d)]) (deterministics m) (observed_RVs m).

Definition add_deterministic (name : string) (e : Expr) (m : Model) : Model :=
  mkModel (free_RVs m) (deterministics m ++ [(name, e)]) (observed_RVs m).

Definition add_observed (name : string) (d : Dist) (data : PyVal) (m : Model) : Model :=
  mkModel (free_RVs m) (deterministics m) (observed_RVs m ++ [(name, (d, data))]).

Section Program.

(** The number type of the samples and its subtraction. *)
Variable num : Type.
Variable sub : num -> num -> num.

(** A point of the parameter space: the value of each free variable. *)
Definition Point : Type := string -> num.

Fixpoint eval (pt : Point) (e : Expr) : num :=
  match e with
  | ERv name => pt name
  | ESub x y => sub (eval pt x) (eval pt y)
  end.

(** The trace [pm.sample] returns: the sampled points together with the model
    they were drawn for. Indexing it by a variable name gives that variable's
    series, a deterministic being evaluated at every sampled point. *)
Record Trace : Type := mkTrace {
  tr_model : Model;
  tr_points : list Point
}.

Definition trace_getitem (t : Trace) (name : string) : Result (list num) :=
  match assoc name (free_RVs (tr_model t)) with
  | Some _ => Ok (map (fun pt => pt name) (tr_points t))
  | None =>
      match assoc name (deterministics (tr_model t)) with
      | Some e => Ok (map (fun pt => eval pt e) (tr_points t))
      | None => Err (KeyError name)
      end
  end.

(** The entry points of the libraries the script calls. Each may raise; the
    script decides none of their results. [pm_sample m draws tune start]
    stands for [pm.sample(draws, step=step, start=start, tune=tune)] and
    yields the retained points. *)
Record Library : Type := mkLibrary {
  pm_Uniform : Model -> string -> PyVal -> PyVal -> Result unit;
  pm_Deterministic : Model -> string -> Expr -> Result unit;
  pm_Binomial : Model -> string -> Expr -> PyVal -> PyVal -> Result unit;
  pm_find_MAP : Model -> Result Point;
  pm_NUTS : Model -> Result unit;
  pm_sample : Model -> nat -> nat -> Point -> Result (list Point)
}.

(** Calls that leave the script, in program order. *)
Inductive Event : Type :=
| EvSetLevel (lvl : Z)
| EvInfo (msg : string)
| EvUniform (name : string) (lower upper : PyVal)
| EvDeterministic (name : string) (e : Expr)
| EvBinomial (name : string) (p : Expr) (n observed : PyVal)
| EvFindMAP
| EvNUTS
| EvSample (draws tune : nat) (start : Point)
| EvSummary
| EvPlotGroups (a b : list num)
| EvPlotPosterior
| EvShow.

Record State : Type := mkState {
  model : Model;
  events : list Event
}.

Definition initial_state : State := mkState empty_model [].

(** State and exceptions: an exception keeps the state reached so far and
    skips the rest of the block (the script has no [try]). *)
Definition M (A : Type) : Type := State -> State * Result A.

Definition ret {A} (a : A) : M A := fun st => (st, Ok a).

Definition bind {A B} (c : M A) (k : A -> M B) : M B :=
  fun st =>
    match c st with
    | (st', Ok a) => k a st'
    | (st', Err e) => (st', Err e)
    end.

Definition lift {A} (r : Result A) : M A := fun st => (st, r).

Definition emit (ev : Event) : M unit :=
  fun st => (mkState (model st) (events st ++ [ev]), Ok tt).

Definition get_model : M Model := fun st => (st, Ok (model st)).

Definition update_model (f : Model -> Model) : M unit :=
  fun st => (mkState (f (model st)) (events st), Ok tt).

Notation "x <- c ;; k" := (bind c (fun x => k))
  (at level 61, c at next level, right associativity).
Notation "c ;; k" := (bind c (fun _ => k))
  (at level 61, right associativity).

Variable lib : Library.

Definition Uniform (name : string) (lower upper : PyVal) : M Expr :=
  emit (EvUniform name lower upper) ;;
  m <- get_model ;;
  lift (pm_Uniform lib m name lower upper) ;;
  update_model (add_free name (DUniform lower upper)) ;;
  ret (ERv name).

Definition Deterministic (name : string) (e : Expr) : M Expr :=
  emit (EvDeterministic name e) ;;
  m <- get_model ;;
  lift (pm_Deterministic lib m name e) ;;
  update_model (add_deterministic name e) ;;
  ret e.

Definition Binomial (name : string) (p : Expr) (n observed : PyVal) : M unit :=
  emit (EvBinomial name p n observed) ;;
  m <- get_model ;;
  lift (pm_Binomial lib m name p n observed) ;;
  update_model (add_observed name (DBinomial p n) observed).

Definition find_MAP : M Point :=
  emit EvFindMAP ;;
  m <- get_model ;;
  lift (pm_find_MAP lib m).

Definition NUTS : M unit :=
  emit EvNUTS ;;
  m <- get_model ;;
  lift (pm_NUTS lib m).

Definition sample (draws : nat) (start : Point) (tune : nat) : M Trace :=
  emit (EvSample draws tune start) ;;
  m <- get_model ;;
  pts <- lift (pm_sample lib m draws tune start) ;;
  ret (mkTrace m pts).

(** The three series the script reads out of the trace. *)
Record Outputs : Type := mkOutputs {
  p_A_samples : list num;
  p_B_samples : list num;
  delta_samples : list num
}.

(** [__main__] from the parsed namespace on. *)
Definition main_body (CLI_args : Namespace) : M Outputs :=
  let n_a := n_a CLI_args in
  let n_b := n_b CLI_args in
  let N_a := N_a CLI_args in
  let N_b := N_b CLI_args in
  let priors_a := priors_a CLI_args in
  let priors_b := priors_b CLI_args in
  emit (EvSetLevel (configured_level CLI_args)) ;;
  emit (EvInfo "Starting Bayesian Model Trainning") ;;
  bounds_a <- lift (uniform_bounds priors_a) ;;
  p_a <- Uniform "p_a" (fst bounds_a) (snd bounds_a) ;;
  bounds_b <- lift (uniform_bounds priors_b) ;;
  p_b <- Uniform "p_b" (fst bounds_b) (snd bounds_b) ;;
  delta <- Deterministic "delta" (ESub p_b p_a) ;;
  Binomial "obs_a" p_a N_a n_a ;;
  Binomial "obs_b" p_b N_b n_b ;;
  start <- find_MAP ;;
  NUTS ;;
  burned_trace <- sample 10000 start 10000 ;;
  emit (EvInfo "Finished Bayesian Model Trainning") ;;
  emit EvSummary ;;
  p_A_samples <- lift (trace_getitem burned_trace "p_a") ;;
  p_B_samples <- lift (trace_getitem burned_trace "p_b") ;;
  delta_samples <- lift (trace_getitem burned_trace "delta") ;;
  emit (EvPlotGroups p_A_samples p_B_samples) ;;
  emit EvPlotPosterior ;;
  emit EvShow ;;
  ret (mkOutputs p_A_samples p_B_samples delta_samples).

(** The whole script: [parse_args] first, then the body. *)
Definition main (raw : RawArgs) : State * Result Outputs :=
  match parse_args raw with
  | Err e => (initial_state, Err e)
  | Ok CLI_args => main_body CLI_args initial_state
  end.

End Program.

Arguments EvSetLevel {num}.
Arguments EvInfo {num}.
Arguments EvUniform {num}.
Arguments EvDeterministic {num}.
Arguments EvBinomial {num}.
Arguments EvFindMAP {num}.
Arguments EvNUTS {num}.
Arguments EvSample {num}.
Arguments EvSummary {num}.
Arguments EvPlotGroups {num}.
Arguments EvPlotPosterior {num}.
Arguments EvShow {num}.
Arguments mkLibrary {num}.
Arguments pm_Uniform {num}.
Arguments pm_Deterministic {num}.
Arguments pm_Binomial {num}.
Arguments pm_find_MAP {num}.
Arguments pm_NUTS {num}.
Arguments pm_sample {num}.
Arguments mkOutputs {num}.
Arguments p_A_samples {num}.
Arguments p_B_samples {num}.
Arguments delta_samples {num}.
Arguments mkState {num}.
Arguments model {num}.
Arguments events {num}.
Arguments main {num}.
Arguments main_body {num}.

(** Whether a call to [pm.sample] was issued. *)
Definition is_sample_event {num} (ev : Event num) : bool :=
  match ev with EvSample _ _ _ => true | _ => false end.

Definition sampling_started {num} (st : State num) : bool :=
  existsb is_sample_event (events st).

(** What the script fixes about each call it issues, whatever the library
    answers. *)
Definition script_event {num} (lib : Library num) (ns : Namespace)
  (ev : Event num) : Prop :=
  match ev with
  | EvSetLevel lvl => lvl = configured_level ns
  | EvUniform name lo hi =>
      (name = "p_a" /\ uniform_bounds (priors_a ns) = Ok (lo, hi)) \/
      (name = "p_b" /\ uniform_bounds (priors_b ns) = Ok (lo, hi))
  | EvDeterministic name e =>
      name = "delta" /\ e = ESub (ERv "p_b") (ERv "p_a")
  | EvBinomial name p n observed =>
      (name = "obs_a" /\ p = ERv "p_a" /\ n = N_a ns /\ observed = n_a ns) \/
      (name = "obs_b" /\ p = ERv "p_b" /\ n = N_b ns /\ observed = n_b ns)
  | EvSample draws tune start =>
      draws = 10000%nat /\ tune = 10000%nat /\
      exists m, pm_find_MAP lib m = Ok start
  | _ => True
  end.

(** An exception that some library entry point returns. *)
Definition library_raises {num} (lib : Library num) (e : PyExc) : Prop :=
  (exists m name lo hi, pm_Uniform lib m name lo hi = Err e) \/
  (exists m name x, pm_Deterministic lib m name x = Err e) \/
  (exists m name p n obs, pm_Binomial lib m name p n obs = Err e) \/
  (exists m, pm_find_MAP lib m = Err e) \/
  (exists m, pm_NUTS lib m = Err e) \/
  (exists m draws tune start, pm_sample lib m draws tune start = Err e).

(** The integer a command-line value denotes. The script never computes it;
    it serves to say which inputs are invalid. *)
Definition int_of (v : PyVal) : option Z :=
  match v with
  | PyInt z => Some z
  | PyStr s => option_map Z.of_int (DecimalString.NilEmpty.int_of_string s)
  | _ => None
  end.

(** Successes above trials, or no trials at all. *)
Definition invalid_observation (successes trials : PyVal) : Prop :=
  match int_of successes, int_of trials with
  | Some s, Some t => (s > t)%Z \/ (t <= 0)%Z
  | _, _ => False
  end.

(** The run aborted with [InvalidInput] and [pm.sample] was never called. *)
Definition rejected_before_sampling {num}
  (outcome : State num * Result (Outputs num)) : Prop :=
  snd outcome = Err (LibExc "InvalidInput") /\
  sampling_started (fst outcome) = false.

(** A library that accepts every call, returns the constant point [pt] from
    [find_MAP] and [draws] copies of the start point from [sample]. *)
Definition accepting_library {num} (pt : Point num) : Library num :=
  mkLibrary
    (fun _ _ _ _ => Ok tt)
    (fun _ _ _ => Ok tt)
    (fun _ _ _ _ _ => Ok tt)
    (fun _ => Ok pt)
    (fun _ => Ok tt)
    (fun _ draws _ start => Ok (repeat start draws)).


End Script.

Import Script.

(* ===================================================================== *)
(** ** Density model *)
(* ===================================================================== *)

Module Density.

Local Open Scope R_scope.

(** A log-density value: a real number, or minus infinity for an infeasible
    point. *)
Inductive LogDensity : Type :=
| NegInf
| Finite (r : R).

Definition is_finite (d : LogDensity) : Prop :=
  exists r, d = Finite r.

(** Observed successes and trials of one group. *)
Record Observation : Type := mkObservation {
  successes : Z;
  trials : Z
}.

Definition valid_observation (o : Observation) : Prop :=
  (0 <= successes o)%Z /\ (0 < trials o)%Z /\ (successes o <= trials o)%Z.

(** A bounded-uniform prior on a rate. *)
Record PriorSpec : Type := mkPrior {
  lower : R;
  upper : R
}.

Definition valid_prior (pr : PriorSpec) : Prop :=
  0 <= lower pr /\ lower pr < upper pr /\ upper pr <= 1.

Definition default_prior : PriorSpec := mkPrior 0 1.

Record ParameterVector : Type := mkParams {
  rate_A : R;
  rate_B : R
}.

(** The fixed inputs of the density model. *)
Record DensityModel : Type := mkDensityModel {
  obs_A : Observation;
  obs_B : Observation;
  prior_A : PriorSpec;
  prior_B : PriorSpec
}.

Definition within (pr : PriorSpec) (x : R) : Prop :=
  lower pr <= x <= upper pr.

Definition within_dec (pr : PriorSpec) (x : R) : {within pr x} + {~ within pr x}.
Proof.
  unfold within.
  destruct (Rle_dec (lower pr) x) as [Hl | Hl].
  - destruct (Rle_dec x (upper pr)) as [Hu | Hu].
    + left; split; assumption.
    + right; intros [_ H]; exact (Hu H).
  - right; intros [H _]; exact (Hl H).
Defined.

(** Feasible: each component inside its group's prior interval. *)
Definition feasible (m : DensityModel) (p : ParameterVector) : Prop :=
  within (prior_A m) (rate_A p) /\ within (prior_B m) (rate_B p).

Definition at_boundary (x : R) : Prop := x = 0 \/ x = 1.

Definition at_boundary_dec (x : R) : {at_boundary x} + {~ at_boundary x}.
Proof.
  unfold at_boundary.
  destruct (Req_dec_T x 0) as [H0 | H0].
  - left; left; exact H0.
  - destruct (Req_dec_T x 1) as [H1 | H1].
    + left; right; exact H1.
    + right; intros [H | H]; [exact (H0 H) | exact (H1 H)].
Defined.

(** Log-density of the uniform prior inside its bounds: a constant. *)
Definition uniform_log_density (pr : PriorSpec) : R :=
  - ln (upper pr - lower pr).

(** [successes * log(rate) + (trials - successes) * log(1 - rate)] *)
Definition binomial_log_likelihood (o : Observation) (rate : R) : R :=
  IZR (successes o) * ln rate + IZR (trials o - successes o) * ln (1 - rate).

(** Modelled from the spec: the density model's [log_posterior] (section 4.1).
    The script only declares the model ([pm.Uniform], [pm.Binomial]) and leaves
    the evaluation of its density to the library, so the function is taken
    from the contract: minus infinity when a component lies outside its prior
    interval, minus infinity when a rate is exactly 0 or 1 (the guard on
    [log 0]), otherwise the prior log-densities plus the two binomial
    log-likelihoods. *)
Definition log_posterior (m : DensityModel) (p : ParameterVector) : LogDensity :=
  if within_dec (prior_A m) (rate_A p) then
    if within_dec (prior_B m) (rate_B p) then
      if at_boundary_dec (rate_A p) then NegInf
      else if at_boundary_dec (rate_B p) then NegInf
      else Finite (uniform_log_density (prior_A m)
                   + uniform_log_density (prior_B m)
                   + binomial_log_likelihood (obs_A m) (rate_A p)
                   + binomial_log_likelihood (obs_B m) (rate_B p))
    else NegInf
  else NegInf.

(** A numeric error, as a logarithm raises on an argument that is not
    positive. *)
Inductive NumericError : Type :=
| MathDomainError.

Definition checked_ln (x : R) : NumericError + R :=
  if Rlt_dec 0 x then inr (ln x) else inl MathDomainError.

Definition checked_uniform_log_density (pr : PriorSpec) : NumericError + R :=
  match checked_ln (upper pr - lower pr) with
  | inl e => inl e
  | inr l => inr (- l)
  end.

Definition checked_binomial_log_likelihood (o : Observation) (rate : R)
  : NumericError + R :=
  match checked_ln rate with
  | inl e => inl e
  | inr l1 =>
      match checked_ln (1 - rate) with
      | inl e => inl e
      | inr l2 =>
          inr (IZR (successes o) * l1 + IZR (trials o - successes o) * l2)
      end
  end.

(** Modelled from the spec: the evaluation of [log_posterior] (section 4.1)
    with its numeric errors made explicit. The script leaves this evaluation
    to the library. The prior box is tested first, then the guard on rates 0
    and 1; only then are the logarithms taken, each of which raises on an
    argument that is not positive. *)
Definition evaluate_log_posterior (m : DensityModel) (p : ParameterVector)
  : NumericError + LogDensity :=
  if within_dec (prior_A m) (rate_A p) then
    if within_dec (prior_B m) (rate_B p) then
      if at_boundary_dec (rate_A p) then inr NegInf
      else if at_boundary_dec (rate_B p) then inr NegInf
      else
        match checked_uniform_log_density (prior_A m) with
        | inl e => inl e
        | inr uA =>
            match checked_uniform_log_density (prior_B m) with
            | inl e => inl e
            | inr uB =>
                match checked_binomial_log_likelihood (obs_A m) (rate_A p) with
                | inl e => inl e
                | inr lA =>
                    match checked_binomial_log_likelihood (obs_B m) (rate_B p) with
                    | inl e => inl e
                    | inr lB => inr (Finite (uA + uB + lA + lB))
                    end
                end
            end
        end
    else inr NegInf
  else inr NegInf.

(** Scenario 1 of the spec: 50/1000 against 70/1000 under the default priors. *)
Definition scenario_1 : DensityModel :=
  mkDensityModel (mkObservation 50 1000) (mkObservation 70 1000)
                 default_prior default_prior.

End Density.

Import Density.

(* ===================================================================== *)
(** ** Sampler *)
(* ===================================================================== *)

Module Sampler.

Local Open Scope nat_scope.

Inductive Phase : Type :=
| WarmUp
| Production
| Terminal.

Inductive SamplerError : Type :=
| DegenerateChain.

Section Machine.

(** Positions, step sizes and the random source are left to the kernel. *)
Variables X Step Rng : Type.

(** What one iteration needs: a proposal around the current position, the
    accept/reject draw for a candidate, and the two step-size adjustments. *)
Record Kernel : Type := mkKernel {
  propose : Step -> X -> Rng -> X * Rng;
  accepts : X -> X -> Rng -> bool * Rng;
  increase_step : Step -> Step;
  decrease_step : Step -> Step
}.

Record Config : Type := mkConfig {
  warmup_iterations : nat;
  production_iterations : nat;
  initial_step : Step
}.

Record SamplerState : Type := mkSamplerState {
  phase : Phase;
  iteration : nat;
  current : X;
  step_size : Step;
  rng : Rng;
  accepted : nat;
  chain : list X
}.

Variable k : Kernel.
Variable cfg : Config.

(** Steps 2 and 3: propose, then accept the candidate or keep the current
    position. *)
Definition iterate (st : SamplerState) : X * Rng * bool :=
  let '(candidate, g1) := propose k (step_size st) (current st) (rng st) in
  let '(ok, g2) := accepts k (current st) candidate g1 in
  (if ok then candidate else current st, g2, ok).

(** Step 4: with [acc] acceptances in [n] warm-up iterations, a rate above
    0.5 increases the step size and a rate below 0.2 decreases it. *)
Definition adapt (acc n : nat) (s : Step) : Step :=
  if n <? 2 * acc then increase_step k s
  else if 5 * acc <? n then decrease_step k s
  else s.

(** Modelled from the spec: the sampler's state machine (section 4.3), which
    the script delegates to [pm.sample(10000, step=step, start=start,
    tune=10000)]. Warm-up iterations adapt the step size and retain nothing;
    a warm-up without a single acceptance signals [DegenerateChain];
    production iterations append the current position, accepted or
    repeated; the machine stops in [Terminal]. *)
Definition step (st : SamplerState) : SamplerError + SamplerState :=
  match phase st with
  | WarmUp =>
      if iteration st <? warmup_iterations cfg then
        let '(x, g, ok) := iterate st in
        let acc := (accepted st + if ok then 1 else 0)%nat in
        inr (mkSamplerState WarmUp (S (iteration st)) x
               (adapt acc (S (iteration st)) (step_size st)) g acc (chain st))
      else if (0 <? warmup_iterations cfg) && (accepted st =? 0) then
        inl DegenerateChain
      else
        inr (mkSamplerState Production 0 (current st) (step_size st) (rng st)
               (accepted st) (chain st))
  | Production =>
      if iteration st <? production_iterations cfg then
        let '(x, g, ok) := iterate st in
        inr (mkSamplerState Production (S (iteration st)) x (step_size st) g
               (accepted st) (chain st ++ [x]))
      else
        inr (mkSamplerState Terminal (iteration st) (current st) (step_size st)
               (rng st) (accepted st) (chain st))
  | Terminal => inr st
  end.

Fixpoint run (fuel : nat) (st : SamplerState) : SamplerError + SamplerState :=
  match fuel with
  | O => inr st
  | S fuel' =>
      match step st with
      | inl e => inl e
      | inr st' => run fuel' st'
      end
  end.

(** Step 1: the current state is the initializer's output. *)
Definition initial (start : X) (g : Rng) : SamplerState :=
  mkSamplerState WarmUp 0 start (initial_step cfg) g 0 [].

(** One transition per iteration, one to leave each of the two phases. *)
Definition budget : nat :=
  (warmup_iterations cfg + production_iterations cfg + 2)%nat.

Definition sample (start : X) (g : Rng) : SamplerError + SamplerState :=
  run budget (initial start g).

(** Transitions still to make before [Terminal]. *)
Definition remaining (st : SamplerState) : nat :=
  match phase st with
  | WarmUp =>
      (warmup_iterations cfg - iteration st + production_iterations cfg + 2)%nat
  | Production => (production_iterations cfg - iteration st + 1)%nat
  | Terminal => 0%nat
  end.

(** What holds of the retained chain in each phase. *)
Definition chain_invariant (st : SamplerState) : Prop :=
  match phase st with
  | WarmUp => chain st = [] /\ (iteration st <= warmup_iterations cfg)%nat
  | Production =>
      length (chain st) = iteration st /\
      (iteration st <= production_iterations cfg)%nat
  | Terminal => length (chain st) = production_iterations cfg
  end.

(** Whether the proposal made from a state is accepted. *)
Definition accepts_proposal (st : SamplerState) : bool :=
  snd (iterate st).

(** The states from which the next [n] transitions start. *)
Fixpoint trajectory (n : nat) (st : SamplerState) : list SamplerState :=
  match n with
  | O => []
  | S n' =>
      st :: match step st with
            | inr st' => trajectory n' st'
            | inl _ => []
            end
  end.

(** How many of the warm-up proposals are accepted. *)
Definition warmup_acceptances (start : X) (g : Rng) : nat :=
  length (filter accepts_proposal
                 (trajectory (warmup_iterations cfg) (initial start g))).

End Machine.

Arguments mkKernel {X Step Rng}.
Arguments propose {X Step Rng}.
Arguments accepts {X Step Rng}.
Arguments increase_step {X Step Rng}.
Arguments decrease_step {X Step Rng}.
Arguments mkConfig {Step}.
Arguments warmup_iterations {Step}.
Arguments production_iterations {Step}.
Arguments initial_step {Step}.
Arguments mkSamplerState {X Step Rng}.
Arguments phase {X Step Rng}.
Arguments iteration {X Step Rng}.
Arguments current {X Step Rng}.
Arguments step_size {X Step Rng}.
Arguments rng {X Step Rng}.
Arguments accepted {X Step Rng}.
Arguments chain {X Step Rng}.
Arguments iterate {X Step Rng}.
Arguments adapt {X Step Rng}.
Arguments step {X Step Rng}.
Arguments run {X Step Rng}.
Arguments initial {X Step Rng}.
Arguments budget {Step}.
Arguments sample {X Step Rng}.
Arguments remaining {X Step Rng}.
Arguments chain_invariant {X Step Rng}.
Arguments accepts_proposal {X Step Rng}.
Arguments trajectory {X Step Rng}.
Arguments warmup_acceptances {X Step Rng}.

(** The reference kernel of the spec: random-walk Metropolis on the two
    rates. [noise] and [uniform01] draw from the random source. *)
Section Metropolis.

Local Open Scope R_scope.

Variable Rng : Type.
Variable noise : Rng -> R * Rng.
Variable uniform01 : Rng -> R * Rng.
Variable growth : R.
Variable m : DensityModel.

Definition clip (pr : PriorSpec) (x : R) : R :=
  Rmax (lower pr) (Rmin (upper pr) x).

Definition metropolis_propose (s : R * R) (p : ParameterVector) (g : Rng)
  : ParameterVector * Rng :=
  let '(eA, g1) := noise g in
  let '(eB, g2) := noise g1 in
  (mkParams (clip (prior_A m) (rate_A p + fst s * eA))
            (clip (prior_B m) (rate_B p + snd s * eB)), g2).

(** [min(1, exp(log_posterior(candidate) - log_posterior(current)))] *)
Definition acceptance_probability (candidate cur : LogDensity) : R :=
  match candidate, cur with
  | NegInf, _ => 0
  | Finite _, NegInf => 1
  | Finite c, Finite d => Rmin 1 (exp (c - d))
  end.

Definition metropolis_accepts (cur candidate : ParameterVector) (g : Rng)
  : bool * Rng :=
  let '(u, g') := uniform01 g in
  (if Rlt_dec u (acceptance_probability (log_posterior m candidate)
                                        (log_posterior m cur))
   then true else false, g').

Definition metropolis : Kernel ParameterVector (R * R) Rng :=
  mkKernel metropolis_propose metropolis_accepts
           (fun s => (growth * fst s, growth * snd s))
           (fun s => (fst s / growth, snd s / growth)).

(** Initial step size: 5% of each prior interval's width. *)
Definition metropolis_config (warmup production : nat) : Config (R * R) :=
  mkConfig warmup production
           ((upper (prior_A m) - lower (prior_A m)) * / 20,
            (upper (prior_B m) - lower (prior_B m)) * / 20).

End Metropolis.

(** A kernel small enough to run: positions are integers, the candidate is
    the next integer, and it is accepted when the random source, a counter
    advanced by every draw, is even. *)
Definition counting_kernel : Kernel Z unit nat :=
  mkKernel (fun _ x g => ((x + 1)%Z, g))
           (fun _ _ g => (Nat.even g, S g))
           (fun s => s) (fun s => s).

End Sampler.

Import Sampler.


(* ===================================================================== *)
(** ** Concrete inputs *)
(* ===================================================================== *)

Module Scenarios.

(** [-n_a 50 -N_a 1000 -n_b 70 -N_b 1000] *)
Definition raw_default : RawArgs :=
  mkRaw None (Some "50") (Some "70") (Some "1000") (Some "1000") None None.

Definition ns_default : Namespace :=
  mkNamespace "INFO" (PyStr "50") (PyStr "70") (PyStr "1000") (PyStr "1000")
              PyNone PyNone.

(** [-l DEBUG -n_a 50 -N_a 1000 -n_b 70 -N_b 1000] *)
Definition raw_debug : RawArgs :=
  mkRaw (Some "DEBUG") (Some "50") (Some "70") (Some "1000") (Some "1000")
        None None.

Definition ns_debug : Namespace :=
  mkNamespace "DEBUG" (PyStr "50") (PyStr "70") (PyStr "1000") (PyStr "1000")
              PyNone PyNone.

(** [-n_a 0 -N_a 0 -n_b 70 -N_b 1000]: group A has no trials. *)
Definition raw_zero_trials : RawArgs :=
  mkRaw None (Some "0") (Some "70") (Some "0") (Some "1000") None None.

Definition ns_zero_trials : Namespace :=
  mkNamespace "INFO" (PyStr "0") (PyStr "70") (PyStr "0") (PyStr "1000")
              PyNone PyNone.

(** [-n_a 50 -N_a 1000 -n_b 70 -N_b 1000 -p_a [0,1] -p_b [0,1]] *)
Definition raw_string_priors : RawArgs :=
  mkRaw None (Some "50") (Some "70") (Some "1000") (Some "1000")
        (Some "[0,1]") (Some "[0,1]").

Definition ns_string_priors : Namespace :=
  mkNamespace "INFO" (PyStr "50") (PyStr "70") (PyStr "1000") (PyStr "1000")
              (PyStr "[0,1]") (PyStr "[0,1]").

(** Integer-valued samples: 3 for [p_a], 10 for [p_b]. *)
Definition toy_point : Point Z :=
  fun name => if String.eqb name "p_a" then 3%Z else 10%Z.

Definition toy_library : Library Z := accepting_library toy_point.

Definition toy_run : State Z * Result (Outputs Z) :=
  main Z.sub toy_library raw_default.

Definition toy_outputs : Outputs Z :=
  mkOutputs (repeat 3%Z 10000) (repeat 10%Z 10000) (repeat 7%Z 10000).

Definition zero_trials_run : State Z * Result (Outputs Z) :=
  main Z.sub toy_library raw_zero_trials.

Definition string_priors_run : State Z * Result (Outputs Z) :=
  main Z.sub toy_library raw_string_priors.


End Scenarios.

Import Scenarios.

(* ===================================================================== *)
(** ** Presentation: [plot_groups] and the order of calls *)
(* ===================================================================== *)

Module Plot.

Section Calls.

Variable num : Type.

(** The [matplotlib.pyplot] calls of the script, with the arguments it
    gives. *)
Inductive PltCall : Type :=
| plt_figure (width height : Z)
| plt_hist (data : list num) (histtype : string) (bins : Z) (alpha : QArith_base.Q)
           (density : bool) (color : option string) (label : string)
| plt_title (text : string)
| plt_legend
| plt_show.

(** [plot_groups(p_A_samples, p_B_samples)] *)
Definition plot_groups (p_A_samples p_B_samples : list num) : list PltCall :=
  [ plt_figure 8 4;
    plt_hist p_A_samples "stepfilled" 25 (QArith_base.Qmake 6 10) true (Some "grey") "Group A";
    plt_hist p_B_samples "stepfilled" 25 (QArith_base.Qmake 4 10) true None "Group B";
    plt_title "Density Distribution (A x B)";
    plt_legend;
    plt_show ].

(** The [pyplot] calls behind an event of [__main__]: the call of
    [plot_groups] and the final [plt.show()]. *)
Definition plt_calls (ev : Event num) : list PltCall :=
  match ev with
  | EvPlotGroups a b => plot_groups a b
  | EvShow => [plt_show]
  | _ => []
  end.

Definition figure_log (st : State num) : list PltCall :=
  flat_map plt_calls (events st).

End Calls.

Arguments plt_figure {num}.
Arguments plt_hist {num}.
Arguments plt_title {num}.
Arguments plt_legend {num}.
Arguments plt_show {num}.
Arguments plot_groups {num}.
Arguments plt_calls {num}.
Arguments figure_log {num}.



(** The model context once the [with] block has registered its five
    variables, for the bounds read from the two priors. *)
Definition built_model (ns : Namespace) (la ua lb ub : PyVal) : Model :=
  mkModel
    [("p_a", DUniform la ua); ("p_b", DUniform lb ub)]
    [("delta", ESub (ERv "p_b") (ERv "p_a"))]
    [("obs_a", (DBinomial (ERv "p_a") (N_a ns), n_a ns));
     ("obs_b", (DBinomial (ERv "p_b") (N_b ns), n_b ns))].

(** The calls of a run that goes through the whole of [__main__]. *)
Definition completed_events {num} (ns : Namespace) (la ua lb ub : PyVal)
  (start : Point num) (out : Outputs num) : list (Event num) :=
  [ EvSetLevel (configured_level ns);
    EvInfo "Starting Bayesian Model Trainning";
    EvUniform "p_a" la ua;
    EvUniform "p_b" lb ub;
    EvDeterministic "delta" (ESub (ERv "p_b") (ERv "p_a"));
    EvBinomial "obs_a" (ERv "p_a") (N_a ns) (n_a ns);
    EvBinomial "obs_b" (ERv "p_b") (N_b ns) (n_b ns);
    EvFindMAP;
    EvNUTS;
    EvSample 10000 10000 start;
    EvInfo "Finished Bayesian Model Trainning";
    EvSummary;
    EvPlotGroups (p_A_samples out) (p_B_samples out);
    EvPlotPosterior;
    EvShow ].

(** [-n_a 50 -N_a 1000 -n_b 70 -N_b 1000 -p_a 5] *)
Definition raw_short_prior : RawArgs :=
  mkRaw None (Some "50") (Some "70") (Some "1000") (Some "1000")
        (Some "5") None.

Definition ns_short_prior : Namespace :=
  mkNamespace "INFO" (PyStr "50") (PyStr "70") (PyStr "1000") (PyStr "1000")
              (PyStr "5") PyNone.

End Plot.

Import Plot.

(* ===================================================================== *)
(** ** The sampler in the place of [pm.sample] *)
(* ===================================================================== *)

Module Pipeline.

(** Modelled from the spec: [pm.sample(draws, step=step, start=start,
    tune=tune)] as the sampler of section 4.3, run for [tune] warm-up and
    [draws] production iterations from [start]; a degenerate warm-up is
    raised to the caller. The library code behind the call is not part of
    the script. *)
Definition spec_pm_sample {num Step Rng : Type}
  (k : Kernel (Point num) Step Rng) (step0 : Step) (g : Rng)
  (m : Model) (draws tune : nat) (start : Point num)
  : Result (list (Point num)) :=
  match Sampler.sample k (mkConfig tune draws step0) start g with
  | inl DegenerateChain => Err (LibExc "DegenerateChain")
  | inr st => Ok (chain st)
  end.

(** A library whose [sample] is that sampler. *)
Definition with_sampler {num Step Rng : Type} (lib : Library num)
  (k : Kernel (Point num) Step Rng) (step0 : Step) (g : Rng) : Library num :=
  mkLibrary (pm_Uniform lib) (pm_Deterministic lib) (pm_Binomial lib)
            (pm_find_MAP lib) (pm_NUTS lib) (spec_pm_sample k step0 g).

(** A kernel on points that always proposes [toy_point] and accepts when
    the random source, a counter advanced by every draw, is even. *)
Definition toy_kernel : Kernel (Point Z) unit nat :=
  mkKernel (fun _ _ g => (toy_point, g))
           (fun _ _ g => (Nat.even g, S g))
           (fun s => s) (fun s => s).

Definition sampler_run : State Z * Result (Outputs Z) :=
  main Z.sub (with_sampler toy_library toy_kernel tt 0%nat) raw_default.


End Pipeline.

Import Pipeline.

(* ===================================================================== *)
(** ** Command line: properties *)
(* ===================================================================== *)

Lemma mem_loglevel_choices (s : string) :
  mem_string s loglevel_choices = true ->
  s = "INFO" \/ s = "DEBUG" \/ s = "WARNING" \/ s = "ERROR".
Proof.
  unfold loglevel_choices; simpl.
  destruct (String.eqb_spec s "INFO"); [auto |].
  destruct (String.eqb_spec s "DEBUG"); [auto |].
  destruct (String.eqb_spec s "WARNING"); [auto |].
  destruct (String.eqb_spec s "ERROR"); [auto 6 |].
  discriminate.
Qed.

Lemma parse_args_loglvel (raw : RawArgs) (ns : Namespace) :
  parse_args raw = Ok ns ->
  loglvel ns = requested_level_name raw /\
  mem_string (loglvel ns) loglevel_choices = true.
Proof.
  unfold parse_args, requested_level_name.
  destruct (raw_loglevel raw) as [s |].
  - destruct (mem_string s loglevel_choices) eqn:Hmem; [| discriminate].
    intros H; inversion H; subst; simpl. split; [reflexivity | exact Hmem].
  - intros H; inversion H; subst; simpl. split; reflexivity.
Qed.

Lemma parse_args_fields (raw : RawArgs) (ns : Namespace) :
  parse_args raw = Ok ns ->
  n_a ns = arg_value (raw_n_a raw) /\ n_b ns = arg_value (raw_n_b raw) /\
  N_a ns = arg_value (raw_N_a raw) /\ N_b ns = arg_value (raw_N_b raw) /\
  p_a ns = arg_value (raw_p_a raw) /\ p_b ns = arg_value (raw_p_b raw).
Proof.
  unfold parse_args.
  destruct (match raw_loglevel raw with
            | Some s => if mem_string s loglevel_choices then Ok s else Err (SystemExit 2)
            | None => Ok "INFO"
            end); [| discriminate].
  intros H; inversion H; subst; simpl. repeat split.
Qed.

(** The bounds read from the default list. *)
Lemma uniform_bounds_default :
  uniform_bounds (priors_of PyNone) = Ok (PyInt 0, PyInt 1).
Proof. reflexivity. Qed.

(** The bounds read from a supplied string: its first two characters, each as
    a one-character string, when it has them. *)
Lemma uniform_bounds_string (s : string) (lo hi : PyVal) :
  uniform_bounds (priors_of (PyStr s)) = Ok (lo, hi) <->
  exists c0 c1,
    String.get 0 s = Some c0 /\ String.get 1 s = Some c1 /\
    lo = PyStr (String c0 EmptyString) /\ hi = PyStr (String c1 EmptyString).
Proof.
  unfold uniform_bounds, priors_of; cbn [is_not_None getitem].
  split.
  - destruct (String.get 0 s) as [c0 |]; [| discriminate].
    destruct (String.get 1 s) as [c1 |]; [| discriminate].
    intros H; inversion H; subst. exists c0, c1. repeat split.
  - intros (c0 & c1 & H0 & H1 & -> & ->). rewrite H0, H1. reflexivity.
Qed.

Lemma uniform_bounds_short_string (s : string) :
  String.length s < 2 -> uniform_bounds (priors_of (PyStr s)) = Err IndexError.
Proof.
  destruct s as [| c0 [| c1 s]]; cbn; intros H; try reflexivity; lia.
Qed.

(* ===================================================================== *)
(** ** The [__main__] block: properties *)
(* ===================================================================== *)

(** Follow the body along each of its paths: one per call that may raise. *)
Ltac script_cases H :=
  unfold main_body, Uniform, Deterministic, Binomial, find_MAP, NUTS,
    Script.sample, bind, lift, emit, get_model, update_model, ret,
    initial_state in H;
  cbn [model events] in H;
  repeat match type of H with
         | context [match ?X with _ => _ end] =>
             lazymatch X with
             | context [match _ with _ => _ end] => fail
             | _ => destruct X eqn:?; cbn [model events] in H
             end
         end;
  inversion H; subst; clear H.

(** Read a series out of the trace of the model the body has built. *)
Ltac trace_reads :=
  repeat match goal with
         | H : trace_getitem _ _ _ _ = _ |- _ =>
             cbv [trace_getitem tr_model tr_points free_RVs deterministics
                  add_free add_deterministic add_observed empty_model app
                  assoc String.eqb Ascii.eqb Bool.eqb eval] in H;
             inversion H; subst; clear H
         end.

Lemma pair_eta {A B} (p : A * B) : (fst p, snd p) = p.
Proof. destruct p; reflexivity. Qed.

Section Body.

Variable num : Type.
Variable sub : num -> num -> num.
Variable lib : Library num.
Variable ns : Namespace.

Lemma main_body_events st r :
  main_body sub lib ns (initial_state num) = (st, r) ->
  Forall (script_event lib ns) (events st).
Proof.
  intros H. script_cases H.
  all: cbn [events app];
    repeat (apply Forall_cons;
            [cbn [script_event]; rewrite ?pair_eta; eauto 8 |]);
    try apply Forall_nil.
Qed.

Lemma main_body_ok st out :
  main_body sub lib ns (initial_state num) = (st, Ok out) ->
  exists m start pts,
    pm_find_MAP lib m = Ok start /\
    pm_sample lib m 10000 10000 start = Ok pts /\
    out = mkOutputs (map (fun pt => pt "p_a") pts)
                    (map (fun pt => pt "p_b") pts)
                    (map (fun pt => sub (pt "p_b") (pt "p_a")) pts) /\
    sampling_started st = true.
Proof.
  intros H. script_cases H. trace_reads.
  do 3 eexists. repeat split; eassumption.
Qed.

Lemma main_body_abort st e :
  main_body sub lib ns (initial_state num) = (st, Err e) ->
  uniform_bounds (priors_a ns) = Err e \/
  uniform_bounds (priors_b ns) = Err e \/
  library_raises lib e.
Proof.
  intros H. script_cases H; trace_reads; unfold library_raises; eauto 12.
Qed.

(** The first call of the block is issued as soon as [priors_a] can be
    subscripted. *)
Lemma main_body_calls_uniform_a st r lo hi :
  main_body sub lib ns (initial_state num) = (st, r) ->
  uniform_bounds (priors_a ns) = Ok (lo, hi) ->
  In (EvUniform "p_a" lo hi) (events st).
Proof.
  intros H. script_cases H; intros Hb; inversion Hb; subst.
  all: cbn [events app fst snd In]; auto 20.
Qed.

End Body.

Lemma main_inv num (sub : num -> num -> num) lib raw st r :
  main sub lib raw = (st, r) ->
  (exists e, parse_args raw = Err e /\ st = initial_state num /\ r = Err e) \/
  (exists ns, parse_args raw = Ok ns /\
              main_body sub lib ns (initial_state num) = (st, r)).
Proof.
  unfold main. destruct (parse_args raw) as [ns | e]; intros H.
  - right. exists ns. split; [reflexivity | exact H].
  - left. exists e. inversion H; subst. repeat split.
Qed.

Lemma main_events num (sub : num -> num -> num) lib raw ns st r :
  parse_args raw = Ok ns ->
  main sub lib raw = (st, r) ->
  Forall (script_event lib ns) (events st).
Proof.
  intros Hparse Hrun. unfold main in Hrun. rewrite Hparse in Hrun.
  exact (main_body_events num sub lib ns st r Hrun).
Qed.

Lemma main_event num (sub : num -> num -> num) lib raw ns st r ev :
  parse_args raw = Ok ns ->
  main sub lib raw = (st, r) ->
  In ev (events st) -> script_event lib ns ev.
Proof.
  intros Hparse Hrun Hin.
  pose proof (main_events num sub lib raw ns st r Hparse Hrun) as Hall.
  rewrite Forall_forall in Hall. exact (Hall ev Hin).
Qed.

(** C1. When the script completes, the [delta] series it reads from the
    trace has the length of the [p_a] and [p_b] series, and at every retained
    index its entry is exactly the [p_b] entry minus the [p_a] entry. *)
Theorem delta_is_exact_difference
  num (sub : num -> num -> num) lib raw st out :
  main sub lib raw = (st, Ok out) ->
  length (delta_samples out) = length (p_A_samples out) /\
  length (delta_samples out) = length (p_B_samples out) /\
  forall i, i < length (delta_samples out) ->
    exists a b,
      nth_error (p_A_samples out) i = Some a /\
      nth_error (p_B_samples out) i = Some b /\
      nth_error (delta_samples out) i = Some (sub b a).
Proof.
  intros Hrun.
  destruct (main_inv num sub lib raw st (Ok out) Hrun)
    as [(e & _ & _ & Habs) | (ns & _ & Hbody)]; [discriminate |].
  destruct (main_body_ok num sub lib ns st out Hbody)
    as (m & start & pts & _ & _ & -> & _).
  cbn [delta_samples p_A_samples p_B_samples].
  rewrite !length_map.
  split; [reflexivity |]. split; [reflexivity |].
  intros i Hi. unfold Point in pts.
  destruct (nth_error pts i) as [pt |] eqn:Hpt.
  - exists (pt "p_a"), (pt "p_b").
    rewrite !nth_error_map, Hpt. cbn [option_map].
    split; [reflexivity |]. split; reflexivity.
  - apply nth_error_None in Hpt. lia.
Qed.

Lemma delta_is_exact_difference_witness :
  toy_run = (fst toy_run, Ok toy_outputs) /\
  length (delta_samples toy_outputs) = length (p_A_samples toy_outputs) /\
  nth_error (delta_samples toy_outputs) 0 = Some (10 - 3)%Z.
Proof.
  assert (Hrun : toy_run = (fst toy_run, Ok toy_outputs))
    by (vm_compute; reflexivity).
  split; [exact Hrun |].
  destruct (delta_is_exact_difference Z Z.sub toy_library raw_default
              (fst toy_run) toy_outputs Hrun) as [Hlen [_ Hnth]].
  split; [exact Hlen |].
  destruct (Hnth 0) as (a & b & Ha & Hb & Hd).
  - vm_compute. lia.
  - vm_compute in Ha, Hb. inversion Ha; inversion Hb; subst. exact Hd.
Defined.

(** C2, as stated, fails: with no trials for group A the script asks the
    library to sample and completes; nothing raises [InvalidInput]. *)
Lemma zero_trials_reach_sampling :
  parse_args raw_zero_trials = Ok ns_zero_trials /\
  invalid_observation (n_a ns_zero_trials) (N_a ns_zero_trials) /\
  is_ok (snd zero_trials_run) = true /\
  sampling_started (fst zero_trials_run) = true /\
  ~ rejected_before_sampling zero_trials_run.
Proof.
  split; [reflexivity |].
  split; [vm_compute; right; discriminate |].
  split; [vm_compute; reflexivity |].
  split; [vm_compute; reflexivity |].
  intros [Herr _]. vm_compute in Herr. discriminate.
Qed.

(** C2, amended. The script validates nothing itself: an abort is always an
    exception of [argparse], of subscripting a prior, or of a library call;
    [pm.Binomial] receives the totals and successes exactly as they stand on
    the command line; and a run that completes has called [pm.sample]. *)
Theorem script_forwards_inputs_unchecked
  num (sub : num -> num -> num) lib raw st r :
  main sub lib raw = (st, r) ->
  (forall e, r = Err e ->
     parse_args raw = Err e \/
     (exists ns, parse_args raw = Ok ns /\
                 (uniform_bounds (priors_a ns) = Err e \/
                  uniform_bounds (priors_b ns) = Err e)) \/
     library_raises lib e) /\
  (forall name p n observed,
     In (EvBinomial name p n observed) (events st) ->
     (name = "obs_a" /\ n = arg_value (raw_N_a raw) /\
      observed = arg_value (raw_n_a raw)) \/
     (name = "obs_b" /\ n = arg_value (raw_N_b raw) /\
      observed = arg_value (raw_n_b raw))) /\
  (is_ok r = true -> sampling_started st = true).
Proof.
  intros Hrun.
  destruct (main_inv num sub lib raw st r Hrun)
    as [(e & Hparse & -> & ->) | (ns & Hparse & Hbody)].
  - split; [| split].
    + intros e' He'. inversion He'; subst. left. exact Hparse.
    + cbn. intros ? ? ? ? [].
    + cbn. discriminate.
  - split; [| split].
    + intros e ->. right.
      destruct (main_body_abort num sub lib ns st e Hbody) as [H | [H | H]].
      * left. exists ns. auto.
      * left. exists ns. auto.
      * right. exact H.
    + intros name p n observed Hin.
      pose proof (main_event num sub lib raw ns st r _ Hparse Hrun Hin) as Hev.
      destruct (parse_args_fields raw ns Hparse)
        as (Hna & Hnb & HNa & HNb & _ & _).
      cbn [script_event] in Hev.
      rewrite <- Hna, <- Hnb, <- HNa, <- HNb. tauto.
    + destruct r as [out | e]; [| discriminate].
      intros _.
      destruct (main_body_ok num sub lib ns st out Hbody)
        as (_ & _ & _ & _ & _ & _ & Hs).
      exact Hs.
Qed.

Lemma script_forwards_inputs_unchecked_witness :
  zero_trials_run = (fst zero_trials_run, snd zero_trials_run) /\
  sampling_started (fst zero_trials_run) = true.
Proof.
  assert (Hrun : zero_trials_run = (fst zero_trials_run, snd zero_trials_run))
    by (destruct zero_trials_run; reflexivity).
  split; [exact Hrun |].
  destruct (script_forwards_inputs_unchecked Z Z.sub toy_library
              raw_zero_trials _ _ Hrun) as [_ [_ Hdone]].
  apply Hdone. vm_compute. reflexivity.
Defined.

(** C5. When a prior argument is absent, the group's prior is the list
    [[0,1]]: every [pm.Uniform] call for that group gets [lower=0] and
    [upper=1], and the call for group A, the first of the block, is issued. *)
Theorem absent_prior_defaults_to_unit_interval
  num (sub : num -> num -> num) lib raw ns st r :
  parse_args raw = Ok ns ->
  main sub lib raw = (st, r) ->
  (raw_p_a raw = None ->
   priors_a ns = PyList [PyInt 0; PyInt 1] /\
   In (EvUniform "p_a" (PyInt 0) (PyInt 1)) (events st) /\
   forall lo hi, In (EvUniform "p_a" lo hi) (events st) ->
                 lo = PyInt 0 /\ hi = PyInt 1) /\
  (raw_p_b raw = None ->
   priors_b ns = PyList [PyInt 0; PyInt 1] /\
   forall lo hi, In (EvUniform "p_b" lo hi) (events st) ->
                 lo = PyInt 0 /\ hi = PyInt 1).
Proof.
  intros Hparse Hrun.
  destruct (parse_args_fields raw ns Hparse) as (_ & _ & _ & _ & Hpa & Hpb).
  assert (Hbody : main_body sub lib ns (initial_state num) = (st, r))
    by (unfold main in Hrun; rewrite Hparse in Hrun; exact Hrun).
  split; intros Habsent.
  - rewrite Habsent in Hpa; cbn in Hpa.
    assert (Hpriors : priors_a ns = PyList [PyInt 0; PyInt 1])
      by (unfold priors_a; rewrite Hpa; reflexivity).
    assert (Hbounds : uniform_bounds (priors_a ns) = Ok (PyInt 0, PyInt 1))
      by (rewrite Hpriors; reflexivity).
    split; [exact Hpriors |]. split.
    + exact (main_body_calls_uniform_a num sub lib ns st r _ _ Hbody Hbounds).
    + intros lo hi Hin.
      pose proof (main_event num sub lib raw ns st r _ Hparse Hrun Hin) as Hev.
      cbn [script_event] in Hev.
      destruct Hev as [[_ Hb] | [Hname _]]; [| discriminate].
      rewrite Hbounds in Hb. inversion Hb; subst. split; reflexivity.
  - rewrite Habsent in Hpb; cbn in Hpb.
    assert (Hpriors : priors_b ns = PyList [PyInt 0; PyInt 1])
      by (unfold priors_b; rewrite Hpb; reflexivity).
    split; [exact Hpriors |].
    intros lo hi Hin.
    pose proof (main_event num sub lib raw ns st r _ Hparse Hrun Hin) as Hev.
    cbn [script_event] in Hev.
    destruct Hev as [[Hname _] | [_ Hb]]; [discriminate |].
    rewrite Hpriors in Hb. inversion Hb; subst. split; reflexivity.
Qed.

Lemma absent_prior_defaults_to_unit_interval_witness :
  parse_args raw_default = Ok ns_default /\
  priors_a ns_default = PyList [PyInt 0; PyInt 1] /\
  priors_b ns_default = PyList [PyInt 0; PyInt 1] /\
  In (EvUniform "p_a" (PyInt 0) (PyInt 1)) (events (fst toy_run)).
Proof.
  assert (Hrun : toy_run = (fst toy_run, snd toy_run))
    by (destruct toy_run; reflexivity).
  destruct (absent_prior_defaults_to_unit_interval Z Z.sub toy_library
              raw_default ns_default _ _ eq_refl Hrun) as [Ha Hb].
  destruct (Ha eq_refl) as [Hpa [Hin _]].
  destruct (Hb eq_refl) as [Hpb _].
  split; [reflexivity |]. split; [exact Hpa |]. split; [exact Hpb | exact Hin].
Defined.

(** C9. When a prior argument is supplied, the script keeps the raw string:
    every [pm.Uniform] call for that group gets as [lower] and [upper] the
    first and the second character of the string, each a one-character
    string and not a number; for group A the call is issued whenever the
    string has those two characters. *)
Theorem supplied_prior_is_read_as_characters
  num (sub : num -> num -> num) lib raw ns st r :
  parse_args raw = Ok ns ->
  main sub lib raw = (st, r) ->
  (forall s, raw_p_a raw = Some s ->
     priors_a ns = PyStr s /\
     (forall lo hi, In (EvUniform "p_a" lo hi) (events st) ->
        exists c0 c1,
          String.get 0 s = Some c0 /\ String.get 1 s = Some c1 /\
          lo = PyStr (String c0 EmptyString) /\
          hi = PyStr (String c1 EmptyString) /\
          is_number lo = false /\ is_number hi = false) /\
     (forall c0 c1,
        String.get 0 s = Some c0 -> String.get 1 s = Some c1 ->
        In (EvUniform "p_a" (PyStr (String c0 EmptyString))
                      (PyStr (String c1 EmptyString))) (events st))) /\
  (forall s, raw_p_b raw = Some s ->
     priors_b ns = PyStr s /\
     (forall lo hi, In (EvUniform "p_b" lo hi) (events st) ->
        exists c0 c1,
          String.get 0 s = Some c0 /\ String.get 1 s = Some c1 /\
          lo = PyStr (String c0 EmptyString) /\
          hi = PyStr (String c1 EmptyString) /\
          is_number lo = false /\ is_number hi = false)).
Proof.
  intros Hparse Hrun.
  destruct (parse_args_fields raw ns Hparse) as (_ & _ & _ & _ & Hpa & Hpb).
  assert (Hbody : main_body sub lib ns (initial_state num) = (st, r))
    by (unfold main in Hrun; rewrite Hparse in Hrun; exact Hrun).
  split; intros s Hs.
  - rewrite Hs in Hpa; cbn in Hpa.
    assert (Hpriors : priors_a ns = priors_of (PyStr s))
      by (unfold priors_a; rewrite Hpa; reflexivity).
    split; [rewrite Hpriors; reflexivity |]. split.
    + intros lo hi Hin.
      pose proof (main_event num sub lib raw ns st r _ Hparse Hrun Hin) as Hev.
      cbn [script_event] in Hev.
      destruct Hev as [[_ Hb] | [Hname _]]; [| discriminate].
      rewrite Hpriors in Hb. apply uniform_bounds_string in Hb.
      destruct Hb as (c0 & c1 & H0 & H1 & -> & ->).
      exists c0, c1. repeat split; assumption.
    + intros c0 c1 H0 H1.
      apply (main_body_calls_uniform_a num sub lib ns st r _ _ Hbody).
      rewrite Hpriors. apply uniform_bounds_string.
      exists c0, c1. repeat split; assumption.
  - rewrite Hs in Hpb; cbn in Hpb.
    assert (Hpriors : priors_b ns = priors_of (PyStr s))
      by (unfold priors_b; rewrite Hpb; reflexivity).
    split; [rewrite Hpriors; reflexivity |].
    intros lo hi Hin.
    pose proof (main_event num sub lib raw ns st r _ Hparse Hrun Hin) as Hev.
    cbn [script_event] in Hev.
    destruct Hev as [[Hname _] | [_ Hb]]; [discriminate |].
    rewrite Hpriors in Hb. apply uniform_bounds_string in Hb.
    destruct Hb as (c0 & c1 & H0 & H1 & -> & ->).
    exists c0, c1. repeat split; assumption.
Qed.

Lemma supplied_prior_is_read_as_characters_witness :
  parse_args raw_string_priors = Ok ns_string_priors /\
  priors_a ns_string_priors = PyStr "[0,1]" /\
  In (EvUniform "p_a" (PyStr "[") (PyStr "0")) (events (fst string_priors_run)).
Proof.
  assert (Hrun : string_priors_run = (fst string_priors_run, snd string_priors_run))
    by (destruct string_priors_run; reflexivity).
  destruct (supplied_prior_is_read_as_characters Z Z.sub toy_library
              raw_string_priors ns_string_priors _ _ eq_refl Hrun) as [Ha _].
  destruct (Ha "[0,1]" eq_refl) as [Hpriors [_ Hcall]].
  split; [reflexivity |]. split; [exact Hpriors |].
  exact (Hcall "["%char "0"%char eq_refl eq_refl).
Defined.

(* ===================================================================== *)
(** ** Density model: properties *)
(* ===================================================================== *)

Section DensityFacts.

Local Open Scope R_scope.

Lemma log_posterior_infeasible (m : DensityModel) (p : ParameterVector) :
  ~ feasible m p -> log_posterior m p = NegInf.
Proof.
  unfold feasible, log_posterior. intros Hout.
  destruct (within_dec (prior_A m) (rate_A p)) as [HA | HA]; [| reflexivity].
  destruct (within_dec (prior_B m) (rate_B p)) as [HB | HB]; [| reflexivity].
  exfalso. apply Hout. split; assumption.
Qed.

Lemma log_posterior_boundary (m : DensityModel) (p : ParameterVector) :
  at_boundary (rate_A p) \/ at_boundary (rate_B p) ->
  log_posterior m p = NegInf.
Proof.
  unfold log_posterior. intros Hb.
  destruct (within_dec (prior_A m) (rate_A p)); [| reflexivity].
  destruct (within_dec (prior_B m) (rate_B p)); [| reflexivity].
  destruct (at_boundary_dec (rate_A p)) as [HA | HA]; [reflexivity |].
  destruct (at_boundary_dec (rate_B p)) as [HB | HB]; [reflexivity |].
  destruct Hb as [H | H]; [destruct (HA H) | destruct (HB H)].
Qed.

Lemma log_posterior_interior (m : DensityModel) (p : ParameterVector) :
  feasible m p ->
  ~ at_boundary (rate_A p) -> ~ at_boundary (rate_B p) ->
  log_posterior m p =
  Finite (uniform_log_density (prior_A m) + uniform_log_density (prior_B m)
          + binomial_log_likelihood (obs_A m) (rate_A p)
          + binomial_log_likelihood (obs_B m) (rate_B p)).
Proof.
  unfold feasible, log_posterior. intros [HA HB] HnA HnB.
  destruct (within_dec (prior_A m) (rate_A p)) as [_ | H]; [| destruct (H HA)].
  destruct (within_dec (prior_B m) (rate_B p)) as [_ | H]; [| destruct (H HB)].
  destruct (at_boundary_dec (rate_A p)) as [H | _]; [destruct (HnA H) |].
  destruct (at_boundary_dec (rate_B p)) as [H | _]; [destruct (HnB H) |].
  reflexivity.
Qed.

Lemma open_unit_not_boundary (x : R) : 0 < x < 1 -> ~ at_boundary x.
Proof. unfold at_boundary. intros [H0 H1] [H | H]; lra. Qed.

End DensityFacts.

(** C3, as stated, fails: under the default priors the point with
    [rate_A = 0] lies inside the prior box, yet its log-posterior is minus
    infinity, not a finite number. *)
Lemma feasible_boundary_point_not_finite :
  feasible scenario_1 (mkParams 0 (1 / 2)) /\
  log_posterior scenario_1 (mkParams 0 (1 / 2)) = NegInf /\
  ~ is_finite (log_posterior scenario_1 (mkParams 0 (1 / 2))).
Proof.
  assert (Hneg : log_posterior scenario_1 (mkParams 0 (1 / 2)) = NegInf).
  { apply log_posterior_boundary. left. left. reflexivity. }
  split; [| split].
  - unfold feasible, within; cbn. lra.
  - exact Hneg.
  - rewrite Hneg. intros [r Hr]. discriminate Hr.
Qed.

(** C3, amended. For a point inside the prior box whose two rates lie
    strictly between 0 and 1 the log-posterior is finite and is the sum of
    the two uniform log-densities and, for each group,
    [successes * ln rate + (trials - successes) * ln (1 - rate)]; for a point
    with a component outside its prior interval it is minus infinity. *)
Theorem log_posterior_values (m : DensityModel) (p : ParameterVector) :
  (feasible m p ->
   (0 < rate_A p < 1)%R -> (0 < rate_B p < 1)%R ->
   is_finite (log_posterior m p) /\
   log_posterior m p =
   Finite (- ln (upper (prior_A m) - lower (prior_A m))
           + - ln (upper (prior_B m) - lower (prior_B m))
           + (IZR (successes (obs_A m)) * ln (rate_A p)
              + IZR (trials (obs_A m) - successes (obs_A m))
                * ln (1 - rate_A p))
           + (IZR (successes (obs_B m)) * ln (rate_B p)
              + IZR (trials (obs_B m) - successes (obs_B m))
                * ln (1 - rate_B p)))%R) /\
  (~ feasible m p -> log_posterior m p = NegInf).
Proof.
  split.
  - intros Hfeas HA HB.
    pose proof (log_posterior_interior m p Hfeas
                  (open_unit_not_boundary _ HA)
                  (open_unit_not_boundary _ HB)) as Heq.
    split; [eexists; exact Heq | exact Heq].
  - apply log_posterior_infeasible.
Qed.

Lemma log_posterior_values_witness :
  is_finite (log_posterior scenario_1 (mkParams (1 / 20) (7 / 100))) /\
  log_posterior scenario_1 (mkParams 2 (1 / 2)) = NegInf.
Proof.
  split.
  - destruct (log_posterior_values scenario_1 (mkParams (1 / 20) (7 / 100)))
      as [Hin _].
    apply Hin.
    + unfold feasible, within; cbn; lra.
    + cbn; lra.
    + cbn; lra.
  - destruct (log_posterior_values scenario_1 (mkParams 2 (1 / 2)))
      as [_ Hout].
    apply Hout. unfold feasible, within; cbn. lra.
Defined.

(* ===================================================================== *)
(** ** Sampler: properties *)
(* ===================================================================== *)

Local Open Scope nat_scope.

Section SamplerFacts.

Variables X Step Rng : Type.
Variable k : Kernel X Step Rng.
Variable cfg : Config Step.

Let SState : Type := SamplerState X Step Rng.

Lemma initial_invariant (start : X) (g : Rng) :
  chain_invariant cfg (initial cfg start g).
Proof. unfold chain_invariant, initial; cbn. split; [reflexivity | lia]. Qed.

Lemma initial_remaining (start : X) (g : Rng) :
  remaining cfg (initial cfg start g) = budget cfg.
Proof. unfold remaining, initial, budget; cbn. lia. Qed.

(** A transition keeps the invariant and uses up one unit of the budget. *)
Lemma step_invariant (st st' : SState) :
  chain_invariant cfg st ->
  step k cfg st = inr st' ->
  chain_invariant cfg st' /\
  (phase st <> Terminal -> S (remaining cfg st') = remaining cfg st).
Proof.
  unfold chain_invariant, remaining, step.
  destruct (phase st) eqn:Hphase; intros Hinv Hstep.
  - destruct Hinv as [Hchain Hle].
    destruct (Nat.ltb_spec (iteration st) (warmup_iterations cfg)) as [Hlt | Hge].
    + destruct (iterate k st) as [[x g] ok].
      inversion Hstep; subst; cbn. split; [split; [exact Hchain | lia] |].
      intros _. lia.
    + destruct ((0 <? warmup_iterations cfg) && (accepted st =? 0));
        [discriminate |].
      inversion Hstep; subst; cbn. split; [split; [rewrite Hchain; reflexivity | lia] |].
      intros _. lia.
  - destruct Hinv as [Hlen Hle].
    destruct (Nat.ltb_spec (iteration st) (production_iterations cfg)) as [Hlt | Hge].
    + destruct (iterate k st) as [[x g] ok].
      inversion Hstep; subst; cbn. split.
      * split; [rewrite length_app; cbn; lia | lia].
      * intros _. lia.
    + inversion Hstep; subst; cbn. split; [lia |].
      intros _. lia.
  - inversion Hstep; subst. rewrite Hphase. split; [exact Hinv |].
    intros Habs. destruct (Habs eq_refl).
Qed.

Lemma step_terminal (st : SState) :
  phase st = Terminal -> step k cfg st = inr st.
Proof. unfold step. intros ->. reflexivity. Qed.

Lemma run_terminal (fuel : nat) (st : SState) :
  phase st = Terminal -> run k cfg fuel st = inr st.
Proof.
  induction fuel as [| fuel IH]; intros Hphase; cbn; [reflexivity |].
  rewrite (step_terminal st Hphase). exact (IH Hphase).
Qed.

(** Only a warm-up that ran can be degenerate. *)
Lemma step_degenerate (st : SState) (e : SamplerError) :
  step k cfg st = inl e -> 0 < warmup_iterations cfg.
Proof.
  unfold step. destruct (phase st).
  - destruct (iteration st <? warmup_iterations cfg).
    + destruct (iterate k st) as [[x g] ok]. discriminate.
    + destruct (Nat.ltb_spec 0 (warmup_iterations cfg)) as [Hpos | Hz];
        cbn [andb]; [intros _; exact Hpos |]. discriminate.
  - destruct (iteration st <? production_iterations cfg);
      [destruct (iterate k st) as [[x g] ok] |]; discriminate.
  - discriminate.
Qed.

Lemma run_within_budget (fuel : nat) :
  forall st : SState,
    chain_invariant cfg st ->
    remaining cfg st <= fuel ->
    (run k cfg fuel st = inl DegenerateChain /\ 0 < warmup_iterations cfg) \/
    exists st', run k cfg fuel st = inr st' /\
                phase st' = Terminal /\
                length (chain st') = production_iterations cfg.
Proof.
  induction fuel as [| fuel IH]; intros st Hinv Hrem.
  - right. exists st. cbn.
    assert (Hphase : phase st = Terminal).
    { unfold remaining in Hrem. destruct (phase st); [lia | lia | reflexivity]. }
    split; [reflexivity |]. split; [exact Hphase |].
    unfold chain_invariant in Hinv. rewrite Hphase in Hinv. exact Hinv.
  - cbn. destruct (step k cfg st) as [e | st'] eqn:Hstep.
    + left. destruct e. split; [reflexivity |].
      exact (step_degenerate st _ Hstep).
    + destruct (step_invariant st st' Hinv Hstep) as [Hinv' Hdec].
      apply IH; [exact Hinv' |].
      destruct (phase st) eqn:Hphase.
      * assert (WarmUp <> Terminal) as Hnt by discriminate.
        specialize (Hdec Hnt). lia.
      * assert (Production <> Terminal) as Hnt by discriminate.
        specialize (Hdec Hnt). lia.
      * rewrite (step_terminal st Hphase) in Hstep. inversion Hstep; subst.
        unfold remaining in *. rewrite Hphase in *. lia.
Qed.

End SamplerFacts.

(** The reference kernel only ever proposes points of the prior box. *)
Lemma metropolis_propose_feasible
  (Rng : Type) (noise : Rng -> R * Rng) (m : DensityModel)
  (s : R * R) (p : ParameterVector) (g : Rng) :
  (lower (prior_A m) <= upper (prior_A m))%R ->
  (lower (prior_B m) <= upper (prior_B m))%R ->
  feasible m (fst (metropolis_propose Rng noise m s p g)).
Proof.
  intros HA HB. unfold metropolis_propose.
  destruct (noise g) as [eA g1]. destruct (noise g1) as [eB g2].
  unfold feasible, within, clip; cbn [fst rate_A rate_B].
  repeat split.
  - apply Rmax_l.
  - apply Rmax_lub; [exact HA | apply Rmin_l].
  - apply Rmax_l.
  - apply Rmax_lub; [exact HB | apply Rmin_l].
Qed.

(** A run of the counting kernel: three warm-up iterations, four retained. *)
Example counting_chain :
  match Sampler.sample counting_kernel (mkConfig 3 4 tt) 0%Z 0 with
  | inr st => phase st = Terminal /\ chain st = [2; 3; 3; 4]%Z
  | inl _ => False
  end.
Proof. vm_compute. split; reflexivity. Qed.

(* ===================================================================== *)
(** ** The script as a whole: further properties *)
(* ===================================================================== *)

Local Open Scope string_scope.

Lemma string_get_none (s : string) :
  forall i : nat, String.get i s = None <-> (String.length s <= i)%nat.
Proof.
  induction s as [| c s IH]; intros i; cbn.
  - split; [intros _; apply Nat.le_0_l | reflexivity].
  - destruct i as [| i]; cbn.
    + split; [discriminate | intros H; inversion H].
    + rewrite IH. split; intros H; [apply le_n_S | apply le_S_n]; exact H.
Qed.

Lemma uniform_bounds_string_error (s : string) (e : PyExc) :
  uniform_bounds (priors_of (PyStr s)) = Err e <->
  e = IndexError /\ (String.length s < 2)%nat.
Proof.
  unfold uniform_bounds, priors_of; cbn [is_not_None getitem].
  destruct (String.get 0 s) as [c0 |] eqn:H0.
  - destruct (String.get 1 s) as [c1 |] eqn:H1.
    + split; [discriminate |]. intros [_ Hlen].
      assert (String.get 1 s = None) as Hn
        by (apply string_get_none; apply Nat.lt_succ_r; exact Hlen).
      rewrite Hn in H1. discriminate.
    + apply string_get_none in H1. split.
      * intros H; inversion H; subst. split; [reflexivity |].
        apply Nat.lt_succ_r. exact H1.
      * intros [-> _]. reflexivity.
  - apply string_get_none in H0. split.
    + intros H; inversion H; subst. split; [reflexivity |].
      apply Nat.lt_succ_r. apply Nat.le_trans with (1 := H0). apply Nat.le_0_1.
    + intros [-> _]. reflexivity.
Qed.

Lemma priors_of_arg_error (o : option string) (e : PyExc) :
  uniform_bounds (priors_of (arg_value o)) = Err e <->
  e = IndexError /\ exists s, o = Some s /\ (String.length s < 2)%nat.
Proof.
  destruct o as [s |]; cbn [arg_value].
  - rewrite uniform_bounds_string_error. split.
    + intros [He Hlen]. split; [exact He |]. exists s. split; [reflexivity | exact Hlen].
    + intros [He (s' & Hs & Hlen)]. inversion Hs. subst s'. split; assumption.
  - split; [discriminate |]. intros [_ (s & Hs & _)]. discriminate.
Qed.

Section BodyPaths.

Variable num : Type.
Variable sub : num -> num -> num.
Variable lib : Library num.
Variable ns : Namespace.

Lemma main_body_completed st out :
  main_body sub lib ns (initial_state num) = (st, Ok out) ->
  exists la ua lb ub start pts,
    uniform_bounds (priors_a ns) = Ok (la, ua) /\
    uniform_bounds (priors_b ns) = Ok (lb, ub) /\
    pm_find_MAP lib (built_model ns la ua lb ub) = Ok start /\
    pm_NUTS lib (built_model ns la ua lb ub) = Ok tt /\
    pm_sample lib (built_model ns la ua lb ub) 10000 10000 start = Ok pts /\
    out = mkOutputs (map (fun pt => pt "p_a") pts)
                    (map (fun pt => pt "p_b") pts)
                    (map (fun pt => sub (pt "p_b") (pt "p_a")) pts) /\
    model st = built_model ns la ua lb ub /\
    events st = completed_events ns la ua lb ub start out.
Proof.
  intros H. script_cases H. trace_reads.
  repeat match goal with
         | a : (PyVal * PyVal)%type |- _ => destruct a
         | u : unit |- _ => destruct u
         end.
  cbn [fst snd] in *.
  match goal with
  | Ha : uniform_bounds (priors_a ns) = Ok (?la, ?ua),
    Hb : uniform_bounds (priors_b ns) = Ok (?lb, ?ub),
    Hm : pm_find_MAP lib _ = Ok ?start,
    Hs : pm_sample lib _ _ _ _ = Ok ?pts |- _ =>
      exists la, ua, lb, ub, start, pts
  end.
  split; [reflexivity |]. split; [reflexivity |].
  split; [assumption |]. split; [assumption |].
  split; [assumption |]. split; [reflexivity |].
  split; reflexivity.
Qed.

Lemma main_body_first_events st r :
  main_body sub lib ns (initial_state num) = (st, r) ->
  exists rest,
    events st = EvSetLevel (configured_level ns)
                :: EvInfo "Starting Bayesian Model Trainning" :: rest.
Proof.
  intros H. script_cases H; cbn [events app]; eexists; reflexivity.
Qed.


End BodyPaths.

Lemma main_parse_error num (sub : num -> num -> num) lib raw e :
  parse_args raw = Err e ->
  main sub lib raw = (initial_state num, Err e).
Proof. intros H. unfold main. rewrite H. reflexivity. Qed.

Lemma main_parse_ok num (sub : num -> num -> num) lib raw ns :
  parse_args raw = Ok ns ->
  main sub lib raw = main_body sub lib ns (initial_state num).
Proof. intros H. unfold main. rewrite H. reflexivity. Qed.

Lemma surjective_run {A B} (x : A * B) : x = (fst x, snd x).
Proof. destruct x; reflexivity. Qed.

(** X1. Whatever the command line, the totals and successes that reach
    [pm.Binomial] are never numbers: each is [None] or a string. *)
Theorem binomial_arguments_are_never_numbers
  num (sub : num -> num -> num) lib raw name p n observed :
  In (EvBinomial name p n observed) (events (fst (main sub lib raw))) ->
  is_number n = false /\ is_number observed = false.
Proof.
  intros Hin.
  destruct (parse_args raw) as [ns | e] eqn:Hparse.
  - pose proof (main_event num sub lib raw ns _ _ _ Hparse
                  (surjective_run (main sub lib raw)) Hin) as Hev.
    destruct (parse_args_fields raw ns Hparse)
      as (Hna & Hnb & HNa & HNb & _ & _).
    cbn [script_event] in Hev.
    destruct Hev as [(_ & _ & -> & ->) | (_ & _ & -> & ->)].
    + rewrite HNa, Hna.
      destruct (raw_N_a raw), (raw_n_a raw); split; reflexivity.
    + rewrite HNb, Hnb.
      destruct (raw_N_b raw), (raw_n_b raw); split; reflexivity.
  - rewrite (main_parse_error num sub lib raw e Hparse) in Hin.
    destruct Hin.
Qed.

Lemma binomial_arguments_are_never_numbers_witness :
  In (EvBinomial "obs_a" (ERv "p_a") (PyStr "1000") (PyStr "50"))
     (events (fst toy_run)) /\
  is_number (PyStr "1000") = false.
Proof.
  assert (Hin : In (EvBinomial "obs_a" (ERv "p_a") (PyStr "1000") (PyStr "50"))
                   (events (fst toy_run))).
  { vm_compute. do 5 right. left. reflexivity. }
  split; [exact Hin |].
  exact (proj1 (binomial_arguments_are_never_numbers Z Z.sub toy_library
                  raw_default _ _ _ _ Hin)).
Defined.

(** X3. Subscripting a prior fails exactly when the argument was supplied
    with fewer than two characters, and the exception is then [IndexError];
    an absent prior or a longer string always yields two bounds. *)
Theorem prior_subscript_fails_only_on_short_strings
  (raw : RawArgs) (ns : Namespace) :
  parse_args raw = Ok ns ->
  (forall e, uniform_bounds (priors_a ns) = Err e <->
             e = IndexError /\
             exists s, raw_p_a raw = Some s /\ (String.length s < 2)%nat) /\
  (forall e, uniform_bounds (priors_b ns) = Err e <->
             e = IndexError /\
             exists s, raw_p_b raw = Some s /\ (String.length s < 2)%nat).
Proof.
  intros Hparse.
  destruct (parse_args_fields raw ns Hparse) as (_ & _ & _ & _ & Hpa & Hpb).
  unfold priors_a, priors_b. rewrite Hpa, Hpb.
  split; intros e; apply priors_of_arg_error.
Qed.

Lemma prior_subscript_fails_only_on_short_strings_witness :
  parse_args raw_short_prior = Ok ns_short_prior /\
  uniform_bounds (priors_a ns_short_prior) = Err IndexError.
Proof.
  split; [reflexivity |].
  destruct (prior_subscript_fails_only_on_short_strings
              raw_short_prior ns_short_prior eq_refl) as [Ha _].
  apply Ha. split; [reflexivity |].
  exists "5". split; [reflexivity |]. cbn. apply Nat.lt_succ_diag_r.
Defined.

(** X9. In a run that completes, the [pyplot] calls are those of
    [plot_groups] on the trace's [p_a] and [p_b] series followed by the final
    [plt.show()]; the two histograms have 25 bins and are normalised, the one
    labelled "Group A" drawn from the whole [p_a] series and the one labelled
    "Group B" from the whole [p_b] series. *)
Theorem histograms_show_the_trace_series
  num (sub : num -> num -> num) lib raw st out :
  main sub lib raw = (st, Ok out) ->
  figure_log st
  = (plot_groups (p_A_samples out) (p_B_samples out) ++ [plt_show])%list /\
  forall data histtype bins alpha density color label,
    In (plt_hist data histtype bins alpha density color label) (figure_log st) ->
    bins = 25%Z /\ density = true /\
    ((label = "Group A" /\ data = p_A_samples out) \/
     (label = "Group B" /\ data = p_B_samples out)).
Proof.
  intros Hrun.
  destruct (main_inv num sub lib raw st (Ok out) Hrun)
    as [(e & _ & _ & Habs) | (ns & Hparse & Hbody)]; [discriminate |].
  destruct (main_body_completed num sub lib ns st out Hbody)
    as (la & ua & lb & ub & start & pts & _ & _ & _ & _ & _ & _ & _ & Hev).
  assert (Hlog : figure_log st
                 = (plot_groups (p_A_samples out) (p_B_samples out)
                    ++ [plt_show])%list)
    by (unfold figure_log; rewrite Hev; reflexivity).
  split; [exact Hlog |].
  intros data histtype bins alpha density color label Hin.
  rewrite Hlog in Hin. cbn [plot_groups app In] in Hin.
  repeat match goal with
         | H : _ \/ _ |- _ => destruct H
         | H : False |- _ => destruct H
         | H : _ = plt_hist _ _ _ _ _ _ _ |- _ =>
             first [discriminate H | inversion H; subst; clear H]
         end.
  - split; [reflexivity |]. split; [reflexivity |]. left. split; reflexivity.
  - split; [reflexivity |]. split; [reflexivity |]. right. split; reflexivity.
Qed.

Lemma histograms_show_the_trace_series_witness :
  toy_run = (fst toy_run, Ok toy_outputs) /\
  figure_log (fst toy_run)
  = (plot_groups (p_A_samples toy_outputs) (p_B_samples toy_outputs)
     ++ [plt_show])%list.
Proof.
  assert (Hrun : toy_run = (fst toy_run, Ok toy_outputs))
    by (vm_compute; reflexivity).
  split; [exact Hrun |].
  exact (proj1 (histograms_show_the_trace_series Z Z.sub toy_library
                  raw_default _ _ Hrun)).
Defined.

(** X11. Once the command line is parsed, the first two calls of every run
    are [setLevel] with the configured level and the "Starting" message, in
    that order and before anything that can raise. *)
Theorem level_is_set_before_anything_else
  num (sub : num -> num -> num) lib raw ns :
  parse_args raw = Ok ns ->
  exists rest,
    events (fst (main sub lib raw))
    = EvSetLevel (configured_level ns)
      :: EvInfo "Starting Bayesian Model Trainning" :: rest.
Proof.
  intros Hparse.
  rewrite (main_parse_ok num sub lib raw ns Hparse).
  exact (main_body_first_events num sub lib ns _ _
           (surjective_run (main_body sub lib ns (initial_state num)))).
Qed.

Lemma level_is_set_before_anything_else_witness :
  parse_args raw_debug = Ok ns_debug /\
  exists rest,
    events (fst (main Z.sub toy_library raw_debug))
    = EvSetLevel logging_DEBUG
      :: EvInfo "Starting Bayesian Model Trainning" :: rest.
Proof.
  split; [reflexivity |].
  exact (level_is_set_before_anything_else Z Z.sub toy_library raw_debug
           ns_debug eq_refl).
Defined.

(* ===================================================================== *)
(** ** Density model: numeric errors *)
(* ===================================================================== *)

Section CheckedDensity.

Local Open Scope R_scope.

Lemma checked_ln_positive (x : R) : 0 < x -> checked_ln x = inr (ln x).
Proof.
  intros H. unfold checked_ln.
  destruct (Rlt_dec 0 x) as [_ | Hn]; [reflexivity | destruct (Hn H)].
Qed.

Lemma checked_ln_zero : checked_ln 0 = inl MathDomainError.
Proof.
  unfold checked_ln.
  destruct (Rlt_dec 0 0) as [H | _]; [| reflexivity].
  exfalso. exact (Rlt_irrefl 0 H).
Qed.

(** Without the guard the likelihood raises at both ends of the unit
    interval. *)
Lemma checked_likelihood_boundary (o : Observation) (x : R) :
  at_boundary x -> checked_binomial_log_likelihood o x = inl MathDomainError.
Proof.
  unfold checked_binomial_log_likelihood. intros [-> | ->].
  - rewrite checked_ln_zero. reflexivity.
  - rewrite (checked_ln_positive 1 Rlt_0_1).
    replace (1 - 1) with 0 by ring. rewrite checked_ln_zero. reflexivity.
Qed.

Lemma checked_likelihood_interior (o : Observation) (x : R) :
  0 < x < 1 ->
  checked_binomial_log_likelihood o x = inr (binomial_log_likelihood o x).
Proof.
  intros [H0 H1]. unfold checked_binomial_log_likelihood.
  rewrite (checked_ln_positive x H0).
  assert (0 < 1 - x) as H by lra.
  rewrite (checked_ln_positive (1 - x) H). reflexivity.
Qed.

Lemma checked_uniform_valid (pr : PriorSpec) :
  valid_prior pr ->
  checked_uniform_log_density pr = inr (uniform_log_density pr).
Proof.
  intros (_ & Hlt & _). unfold checked_uniform_log_density.
  assert (0 < upper pr - lower pr) as H by lra.
  rewrite (checked_ln_positive _ H). reflexivity.
Qed.

(** Inside a valid prior interval and off the boundary, a rate lies strictly
    between 0 and 1. *)
Lemma valid_interior (pr : PriorSpec) (x : R) :
  valid_prior pr -> within pr x -> ~ at_boundary x -> 0 < x < 1.
Proof.
  unfold valid_prior, within, at_boundary.
  intros (H0 & _ & H1) [Hl Hu] Hnb.
  split.
  - destruct (Rle_lt_or_eq_dec 0 x) as [Hlt | Heq]; [lra | exact Hlt |].
    exfalso. apply Hnb. left. symmetry. exact Heq.
  - destruct (Rle_lt_or_eq_dec x 1) as [Hlt | Heq]; [lra | exact Hlt |].
    exfalso. apply Hnb. right. exact Heq.
Qed.

Lemma evaluate_boundary (m : DensityModel) (p : ParameterVector) :
  at_boundary (rate_A p) \/ at_boundary (rate_B p) ->
  evaluate_log_posterior m p = inr NegInf.
Proof.
  unfold evaluate_log_posterior. intros Hb.
  destruct (within_dec (prior_A m) (rate_A p)); [| reflexivity].
  destruct (within_dec (prior_B m) (rate_B p)); [| reflexivity].
  destruct (at_boundary_dec (rate_A p)) as [HA | HA]; [reflexivity |].
  destruct (at_boundary_dec (rate_B p)) as [HB | HB]; [reflexivity |].
  destruct Hb as [H | H]; [destruct (HA H) | destruct (HB H)].
Qed.

Lemma evaluate_never_raises (m : DensityModel) (p : ParameterVector) :
  valid_prior (prior_A m) -> valid_prior (prior_B m) ->
  evaluate_log_posterior m p = inr (log_posterior m p).
Proof.
  intros HvA HvB. unfold evaluate_log_posterior, log_posterior.
  destruct (within_dec (prior_A m) (rate_A p)) as [HA | _]; [| reflexivity].
  destruct (within_dec (prior_B m) (rate_B p)) as [HB | _]; [| reflexivity].
  destruct (at_boundary_dec (rate_A p)) as [_ | HnA]; [reflexivity |].
  destruct (at_boundary_dec (rate_B p)) as [_ | HnB]; [reflexivity |].
  rewrite (checked_uniform_valid _ HvA), (checked_uniform_valid _ HvB).
  rewrite (checked_likelihood_interior _ _ (valid_interior _ _ HvA HA HnA)).
  rewrite (checked_likelihood_interior _ _ (valid_interior _ _ HvB HB HnB)).
  reflexivity.
Qed.

End CheckedDensity.

(** C6. Evaluating the log-posterior where a rate is exactly 0 or exactly 1
    returns minus infinity and not a numeric error, although the likelihood
    taken there without the guard raises one; and under valid priors the
    evaluation raises at no point whatever: it always returns the value of
    [log_posterior]. *)
Theorem boundary_rate_gives_neg_infinity (m : DensityModel) (p : ParameterVector) :
  (rate_A p = 0%R \/ rate_A p = 1%R \/ rate_B p = 0%R \/ rate_B p = 1%R ->
   evaluate_log_posterior m p = inr NegInf /\
   log_posterior m p = NegInf /\
   (forall o x, x = rate_A p \/ x = rate_B p -> (x = 0%R \/ x = 1%R) ->
                checked_binomial_log_likelihood o x = inl MathDomainError)) /\
  (valid_prior (prior_A m) -> valid_prior (prior_B m) ->
   evaluate_log_posterior m p = inr (log_posterior m p)).
Proof.
  split.
  - intros H.
    assert (Hb : at_boundary (rate_A p) \/ at_boundary (rate_B p))
      by (unfold at_boundary; tauto).
    split; [exact (evaluate_boundary m p Hb) |].
    split; [exact (log_posterior_boundary m p Hb) |].
    intros o x _ Hx. apply checked_likelihood_boundary. exact Hx.
  - apply evaluate_never_raises.
Qed.

Lemma boundary_rate_gives_neg_infinity_witness :
  evaluate_log_posterior scenario_1 (mkParams (1 / 2) 1) = inr NegInf /\
  evaluate_log_posterior scenario_1 (mkParams (1 / 20) (7 / 100))
  = inr (log_posterior scenario_1 (mkParams (1 / 20) (7 / 100))).
Proof.
  destruct (boundary_rate_gives_neg_infinity scenario_1 (mkParams (1 / 2) 1))
    as [Hb _].
  destruct (boundary_rate_gives_neg_infinity scenario_1
              (mkParams (1 / 20) (7 / 100))) as [_ Hv].
  split.
  - apply Hb. cbn. right; right; right. reflexivity.
  - apply Hv; unfold valid_prior; cbn; lra.
Defined.

(* ===================================================================== *)
(** ** Sampler: warm-up, degenerate chains and the script *)
(* ===================================================================== *)

Section SamplerWarmup.

Local Open Scope nat_scope.

Variables X Step Rng : Type.
Variable k : Kernel X Step Rng.
Variable cfg : Config Step.

Lemma run_add (a b : nat) :
  forall st : SamplerState X Step Rng,
    run k cfg (a + b) st
    = match run k cfg a st with
      | inl e => inl e
      | inr st' => run k cfg b st'
      end.
Proof.
  induction a as [| a IH]; intros st; cbn; [reflexivity |].
  destruct (step k cfg st) as [e | st']; [reflexivity | apply IH].
Qed.

(** Warm-up iterations never fail, retain nothing and count the accepted
    proposals. *)
Lemma warmup_steps (n : nat) :
  forall st : SamplerState X Step Rng,
    phase st = WarmUp ->
    iteration st + n <= warmup_iterations cfg ->
    exists st',
      run k cfg n st = inr st' /\
      phase st' = WarmUp /\
      iteration st' = iteration st + n /\
      chain st' = chain st /\
      accepted st'
      = accepted st + length (filter (accepts_proposal k) (trajectory k cfg n st)).
Proof.
  induction n as [| n IH]; intros st Hphase Hle.
  - exists st. cbn. repeat split; auto.
  - cbn [run trajectory].
    assert (Hstep : step k cfg st
                    = inr (mkSamplerState WarmUp (S (iteration st))
                             (fst (fst (iterate k st)))
                             (adapt k (accepted st
                                       + if snd (iterate k st) then 1 else 0)
                                    (S (iteration st)) (step_size st))
                             (snd (fst (iterate k st)))
                             (accepted st + if snd (iterate k st) then 1 else 0)
                             (chain st))).
    { unfold step. rewrite Hphase.
      destruct (Nat.ltb_spec (iteration st) (warmup_iterations cfg)) as [_ | Hge];
        [| lia].
      destruct (iterate k st) as [[x g] ok]. reflexivity. }
    rewrite Hstep.
    match type of Hstep with
    | _ = inr ?s =>
        destruct (IH s eq_refl) as (st' & Hrun & Hph & Hit & Hch & Hacc);
          [cbn; lia |]
    end.
    exists st'. cbn in Hit, Hch, Hacc.
    split; [exact Hrun |]. split; [exact Hph |].
    split; [lia |]. split; [exact Hch |].
    rewrite Hacc. cbn [filter]. unfold accepts_proposal at 2.
    destruct (snd (iterate k st)); cbn [length]; lia.
Qed.

(** Once the warm-up is left, the run reaches [Terminal] without error. *)
Lemma run_after_warmup (fuel : nat) :
  forall st : SamplerState X Step Rng,
    phase st <> WarmUp ->
    chain_invariant cfg st ->
    remaining cfg st <= fuel ->
    exists st', run k cfg fuel st = inr st' /\
                phase st' = Terminal /\
                length (chain st') = production_iterations cfg.
Proof.
  induction fuel as [| fuel IH]; intros st Hnw Hinv Hrem.
  - exists st. cbn.
    assert (Hphase : phase st = Terminal).
    { unfold remaining in Hrem. destruct (phase st); [lia | lia | reflexivity]. }
    split; [reflexivity |]. split; [exact Hphase |].
    unfold chain_invariant in Hinv. rewrite Hphase in Hinv. exact Hinv.
  - cbn. destruct (step k cfg st) as [e | st'] eqn:Hstep.
    + exfalso. unfold step in Hstep.
      destruct (phase st); [destruct (Hnw eq_refl) | | discriminate].
      destruct (iteration st <? production_iterations cfg);
        [destruct (iterate k st) as [[x g] ok] |]; discriminate.
    + destruct (step_invariant X Step Rng k cfg st st' Hinv Hstep) as [Hinv' Hdec].
      apply IH; [| exact Hinv' |].
      * unfold step in Hstep.
        destruct (phase st) eqn:Hphase; [destruct (Hnw eq_refl) | |].
        -- destruct (iteration st <? production_iterations cfg);
             [destruct (iterate k st) as [[x g] ok] |];
             inversion Hstep; subst; cbn; discriminate.
        -- inversion Hstep; subst. rewrite Hphase. discriminate.
      * destruct (phase st) eqn:Hphase.
        -- destruct (Hnw eq_refl).
        -- assert (Production <> Terminal) as Hnt by discriminate.
           specialize (Hdec Hnt). lia.
        -- rewrite (step_terminal X Step Rng k cfg st Hphase) in Hstep.
           inversion Hstep; subst.
           unfold remaining in *. rewrite Hphase in *. lia.
Qed.

(** The outcome of a run, by the number of accepted warm-up proposals. *)
Lemma sample_outcome (start : X) (g : Rng) :
  (0 < warmup_iterations cfg /\
   warmup_acceptances k cfg start g = 0 /\
   Sampler.sample k cfg start g = inl DegenerateChain) \/
  ((warmup_iterations cfg = 0 \/ 0 < warmup_acceptances k cfg start g) /\
   exists st, Sampler.sample k cfg start g = inr st /\
              phase st = Terminal /\
              length (chain st) = production_iterations cfg).
Proof.
  unfold Sampler.sample, budget, warmup_acceptances.
  replace (warmup_iterations cfg + production_iterations cfg + 2)
    with (warmup_iterations cfg + S (S (production_iterations cfg))) by lia.
  rewrite run_add.
  destruct (warmup_steps (warmup_iterations cfg) (initial cfg start g) eq_refl)
    as (stw & Hrun & Hph & Hit & Hch & Hacc).
  { cbn. lia. }
  rewrite Hrun. cbn in Hit, Hch, Hacc.
  remember (length (filter (accepts_proposal k)
                      (trajectory k cfg (warmup_iterations cfg)
                         (initial cfg start g)))) as acc.
  assert (Hstepw :
            step k cfg stw
            = if (0 <? warmup_iterations cfg) && (acc =? 0)
              then inl DegenerateChain
              else inr (mkSamplerState Production 0 (current stw)
                          (step_size stw) (rng stw) acc (chain stw))).
  { unfold step. rewrite Hph, Hit, Nat.ltb_irrefl, Hacc. reflexivity. }
  change (run k cfg (S (S (production_iterations cfg))) stw)
    with (match step k cfg stw with
          | inl e => inl e
          | inr st' => run k cfg (S (production_iterations cfg)) st'
          end).
  rewrite Hstepw.
  destruct (Nat.ltb_spec 0 (warmup_iterations cfg)) as [Hpos | Hzero];
    cbn [andb].
  - destruct (Nat.eqb_spec acc 0) as [Hz | Hnz].
    + left. repeat split; assumption.
    + right. split; [right; lia |].
      apply run_after_warmup.
      * cbn. discriminate.
      * unfold chain_invariant; cbn. rewrite Hch. split; [reflexivity | lia].
      * unfold remaining; cbn. lia.
  - right. split; [left; lia |].
    apply run_after_warmup.
    + cbn. discriminate.
    + unfold chain_invariant; cbn. rewrite Hch. split; [reflexivity | lia].
    + unfold remaining; cbn. lia.
Qed.

End SamplerWarmup.

(** C4. For every configuration, start point and random source the sampler
    signals a degenerate chain exactly when warm-up iterations were requested
    and none of their proposals was accepted; in every other case it stops in
    its terminal state with a retained chain of exactly the configured
    number of production iterations, the warm-up ones being discarded. Put
    in the place of [pm.sample], it gives every completed run of the script
    three series of exactly 10000 entries, the draws it asks for. *)
Theorem chain_length_is_production_count
  (num Step Rng : Type) (k : Kernel (Point num) Step Rng) (g : Rng) :
  (forall (cfg : Config Step) (start : Point num),
     ((0 < warmup_iterations cfg)%nat /\
      warmup_acceptances k cfg start g = 0%nat /\
      Sampler.sample k cfg start g = inl DegenerateChain) \/
     ((warmup_iterations cfg = 0%nat \/
       (0 < warmup_acceptances k cfg start g)%nat) /\
      exists st, Sampler.sample k cfg start g = inr st /\
                 phase st = Terminal /\
                 length (chain st) = production_iterations cfg)) /\
  (forall (sub : num -> num -> num) (lib : Library num) (step0 : Step)
          raw st out,
     main sub (with_sampler lib k step0 g) raw = (st, Ok out) ->
     length (p_A_samples out) = 10000%nat /\
     length (p_B_samples out) = 10000%nat /\
     length (delta_samples out) = 10000%nat).
Proof.
  split.
  - intros cfg start. apply sample_outcome.
  - intros sub lib step0 raw st out Hrun.
    destruct (main_inv num sub _ raw st (Ok out) Hrun)
      as [(e & _ & _ & Habs) | (ns & _ & Hbody)]; [discriminate |].
    destruct (main_body_ok num sub _ ns st out Hbody)
      as (m & start & pts & _ & Hsample & -> & _).
    cbn [pm_sample with_sampler] in Hsample. unfold spec_pm_sample in Hsample.
    destruct (sample_outcome (Point num) Step Rng k
                (mkConfig 10000 10000 step0) start g)
      as [(_ & _ & Hdeg) | (_ & stT & HT & _ & Hlen)].
    + rewrite Hdeg in Hsample. discriminate.
    + rewrite HT in Hsample. inversion Hsample; subst pts.
      cbn [p_A_samples p_B_samples delta_samples production_iterations] in *.
      rewrite !length_map. repeat split; exact Hlen.
Qed.

Lemma chain_length_is_production_count_witness :
  snd (main Z.sub (with_sampler toy_library toy_kernel tt 0%nat) raw_default)
  = Ok toy_outputs /\
  length (p_A_samples toy_outputs) = 10000%nat.
Proof.
  assert (Hsnd : snd (main Z.sub (with_sampler toy_library toy_kernel tt 0%nat)
                           raw_default)
                 = Ok toy_outputs)
    by (vm_compute; reflexivity).
  split; [exact Hsnd |].
  destruct (chain_length_is_production_count Z unit nat toy_kernel 0%nat)
    as [_ Hscript].
  refine (proj1 (Hscript Z.sub toy_library tt raw_default
                   (fst (main Z.sub (with_sampler toy_library toy_kernel tt 0%nat)
                              raw_default))
                   toy_outputs _)).
  rewrite <- Hsnd. apply surjective_pairing.
Defined.

(* ===================================================================== *)
(** ** The seed of the sampler and the log level, in the run *)
(* ===================================================================== *)

Section SeedAndLevel.

Local Open Scope string_scope.

Variable num : Type.
Variable sub : num -> num -> num.
Variable lib : Library num.
Variable ns : Namespace.

Ltac no_such_event Hin :=
  cbn [events app In] in Hin;
  repeat (destruct Hin as [Hin | Hin]; [discriminate Hin |]);
  first [discriminate Hin | destruct Hin].

Lemma main_body_setlevel_once st r :
  main_body sub lib ns (initial_state num) = (st, r) ->
  exists rest,
    events st = EvSetLevel (configured_level ns) :: rest /\
    forall lvl, ~ In (EvSetLevel lvl) rest.
Proof.
  intros H. script_cases H; cbn [events app]; eexists;
    (split; [reflexivity | intros lvl Hin; no_such_event Hin]).
Qed.



End SeedAndLevel.

(** C10. After a successful parse the run calls [setLevel] first and only
    once, with the level the [--loglevel] argument names (INFO when the
    argument is absent); the dispatch never takes its fallback branch, the
    parser having restricted the value to INFO, DEBUG, WARNING and ERROR. *)
Theorem loglevel_follows_argument
  num (sub : num -> num -> num) lib (raw : RawArgs) (ns : Namespace) :
  parse_args raw = Ok ns ->
  loglvel ns = requested_level_name raw /\
  level_named (requested_level_name raw) = Some (configured_level ns) /\
  loglevel_branch (loglvel ns) <> BranchFallback /\
  (raw_loglevel raw = None -> configured_level ns = logging_INFO) /\
  exists lvl rest,
    level_named (requested_level_name raw) = Some lvl /\
    events (fst (main sub lib raw)) = EvSetLevel lvl :: rest /\
    forall lvl', ~ In (EvSetLevel lvl') rest.
Proof.
  intros Hparse.
  destruct (parse_args_loglvel raw ns Hparse) as [Hname Hmem].
  assert (Hlevel : level_named (requested_level_name raw)
                   = Some (configured_level ns)).
  { rewrite <- Hname. unfold configured_level.
    destruct (mem_loglevel_choices _ Hmem) as [H | [H | [H | H]]];
      rewrite H; reflexivity. }
  split; [exact Hname |]. split; [exact Hlevel |]. split; [| split].
  - destruct (mem_loglevel_choices _ Hmem) as [H | [H | [H | H]]];
      rewrite H; discriminate.
  - intros Habsent. unfold configured_level. rewrite Hname.
    unfold requested_level_name. rewrite Habsent. reflexivity.
  - rewrite (main_parse_ok num sub lib raw ns Hparse).
    destruct (main_body_setlevel_once num sub lib ns _ _
                (surjective_run (main_body sub lib ns (initial_state num))))
      as (rest & Hev & Honce).
    exists (configured_level ns), rest.
    split; [exact Hlevel |]. split; [exact Hev | exact Honce].
Qed.

Lemma loglevel_follows_argument_witness :
  parse_args raw_debug = Ok ns_debug /\
  level_named "DEBUG" = Some (configured_level ns_debug) /\
  loglevel_branch (loglvel ns_debug) <> BranchFallback /\
  exists lvl rest,
    level_named "DEBUG" = Some lvl /\
    events (fst (main Z.sub toy_library raw_debug)) = EvSetLevel lvl :: rest /\
    forall lvl', ~ In (EvSetLevel lvl') rest.
Proof.
  split; [reflexivity |].
  destruct (loglevel_follows_argument Z Z.sub toy_library raw_debug ns_debug
              eq_refl) as [_ [Hlvl [Hbranch [_ Hcall]]]].
  split; [exact Hlvl |]. split; [exact Hbranch | exact Hcall].
Defined.







